(** * SauceNAO endpoint of HibiAPI: [src/api/sauce/api.py]

    A shallow embedding of [SauceEndpoint.fetch], [SauceEndpoint.request] and
    [SauceEndpoint.search], with the Python values, exceptions, in-memory
    byte buffer and parameter dictionary they work on, followed by the
    properties of the endpoint.

    Python code runs here in a state-and-exception monad.  The state holds
    the store of dictionary objects (dictionaries are passed by reference
    and [request] updates its argument in place) and the log of everything
    the endpoint did on the network. *)

From Stdlib Require Import ZArith.
From stdpp Require Import gmap strings list fin_maps.

Local Open Scope string_scope.
Local Open Scope list_scope.
Local Open Scope Z_scope.

(** ** Python values *)

(** The values that travel through headers and query parameters. *)
Inductive pyval : Type :=
| PNone
| PInt (n : Z)
| PStr (s : string).

#[global] Instance pyval_eq_dec : EqDecision pyval.
Proof. solve_decision. Defined.

(** A [Dict[str, Any]]. *)
Abbreviation dict := (gmap string pyval).

(** [Optional[int]] arguments as Python values. *)
Definition of_optional_int (o : option Z) : pyval :=
  match o with
  | Some n => PInt n
  | None => PNone
  end.

(** ** Exceptions *)

(** What the upstream answered to the POST: status line and body text. *)
Record Response : Type := mkResponse {
  status_code : Z;
  text : string;
}.

Inductive exn : Type :=
| HTTPError (message : string)
    (* httpx.HTTPError and its transport subclasses *)
| HTTPStatusError (message : string) (response : Response)
    (* httpx.HTTPStatusError, a subclass of HTTPError *)
| UnavailableSourceException (detail : option string)
| ImageSourceOversizedException
    (* subclass of UnavailableSourceException, always raised bare *)
| UpstreamAPIException (detail : option string)
| TypeError
| AssertionError
| ValueError (message : string)
| JSONDecodeError.

(** [isinstance(e, HTTPError)]: the class itself and its subclass. *)
Definition isinstance_HTTPError (e : exn) : bool :=
  match e with
  | HTTPError _ | HTTPStatusError _ _ => true
  | _ => false
  end.

(** [str(e)] for the httpx errors: their message. *)
Definition str (e : exn) : string :=
  match e with
  | HTTPError m | HTTPStatusError m _ | ValueError m => m
  | _ => ""
  end.

Inductive result (A : Type) : Type :=
| Ok (a : A)
| Raise (e : exn).
Arguments Ok {A} a.
Arguments Raise {A} e.

(** ** Comparison of Python values *)

(** [a > b].  Python 3 orders ints with ints and strs with strs; any other
    pairing raises [TypeError]. *)
Definition py_gt (a b : pyval) : result bool :=
  match a, b with
  | PInt x, PInt y => Ok (x >? y)
  | PStr x, PStr y => Ok (String.ltb y x)
  | _, _ => Raise TypeError
  end.

(** [mapping.get(key, default)]. *)
Definition get (m : dict) (key : string) (default : pyval) : pyval :=
  match m !! key with
  | Some v => v
  | None => default
  end.

(** ** DeduplicateType *)

Inductive DeduplicateType : Type :=
| DISABLED
| IDENTIFIER
| ALL.

(** An [IntEnum] member is an [int]; this is the int it is. *)
Definition DeduplicateType_value (d : DeduplicateType) : Z :=
  match d with
  | DISABLED => 0
  | IDENTIFIER => 1
  | ALL => 2
  end.

(** ** UploadFileIO: a [BytesIO] *)

Record UploadFileIO : Type := mkFile {
  data : list Byte.byte;
  pos : nat;
}.

Definition UploadFileIO_new : UploadFileIO := {| data := []; pos := 0 |}.

(** [BytesIO.write]: overwrite from the cursor on, pad with zero bytes when
    the cursor is past the end, move the cursor behind what was written and
    return the number of bytes written. *)
Definition write (f : UploadFileIO) (b : list Byte.byte) : UploadFileIO * Z :=
  ({| data := take (pos f) (data f)
              ++ replicate (pos f - length (data f))%nat Byte.x00
              ++ b
              ++ drop (pos f + length b)%nat (data f);
      pos := (pos f + length b)%nat |},
   Z.of_nat (length b)).

Definition seek (f : UploadFileIO) (offset : nat) : UploadFileIO :=
  {| data := data f; pos := offset |}.

(** ** Configuration and collaborators *)

(** [SauceConstants], from the [constants] module. *)
Record SauceConstants : Type := mkConstants {
  API_KEY : pyval;
  IMAGE_HEADERS : gmap string string;
  IMAGE_TIMEOUT : Z;
  IMAGE_MAXIMUM_SIZE : Z;
  IMAGE_ALLOWED_HOST : list string;
}.

(** A URL as the validator sees it: its text and its host component. *)
Record Url : Type := mkUrl {
  url_text : string;
  url_host : string;
}.

(** A [HostUrl] instance: a URL that went through the validator. *)
Inductive HostUrl : Type :=
| Validated (u : Url).

(** Modelled from the spec: [BaseHostUrl] ([utils.utils]) is missing; the
    spec says that constructing the validated host fails if the host is
    not in the allow-list.  [HostUrl] sets [allowed_hosts] to
    [SauceConstants.IMAGE_ALLOWED_HOST]. *)
Definition HostUrl_validate (K : SauceConstants) (u : Url) : result HostUrl :=
  if bool_decide (url_host u ∈ IMAGE_ALLOWED_HOST K)
  then Ok (Validated u)
  else Raise (ValueError "URL host invalid").

(** One step of the body of a streamed response: the next chunk, or the
    transport failing while the body is read. *)
Inductive stream_item : Type :=
| Chunk (b : list Byte.byte)
| StreamFailure (message : string).

(** A streamed response: the headers (keys in lower case, as httpx keeps
    them; httpx hands every header value out as a [str], a [PStr] here)
    and what iterating over the body will produce. *)
Record StreamResponse : Type := mkStream {
  headers : dict;
  stream : list stream_item;
}.

(** The part of httpx the endpoint relies on. *)
Record Httpx (JSON : Type) : Type := mkHttpx {
  (* the status codes on which Response.raise_for_status raises *)
  is_error : Z → bool;
  (* the message of the HTTPStatusError it raises *)
  status_message : Response → string;
  (* Response.json(): None when the body does not parse *)
  json : string → option JSON;
}.
Arguments is_error {JSON} _ _.
Arguments status_message {JSON} _ _.
Arguments json {JSON} _ _.

(** [self]: a [BaseEndpoint] with its HTTP client and URL builder.  The
    client is the network: what it answers is not under the endpoint's
    control.  [inl m] is the call raising [HTTPError m].  Exceptions of
    other classes that a client may raise (httpx.InvalidURL is one) are not
    in this model; the endpoint has no handler for them, they would leave
    [fetch] and [request] as they are. *)
Record SauceEndpoint : Type := mkEndpoint {
  client_stream : string → HostUrl → gmap string string → Z →
                  string + StreamResponse;
  client_post : string → UploadFileIO → string + Response;
  _join : string → string → dict → string;
}.

Definition base : string := "https://saucenao.com".

(** ** The state and the monad *)

(** What the endpoint did on the network, in order. *)
Inductive net_event : Type :=
| NetGet (url : HostUrl) (request_headers : gmap string string) (timeout : Z)
    (* a streaming GET was opened *)
| NetRead (chunk : list Byte.byte)
    (* one chunk of the response body was read *)
| NetPost (url : string) (file : UploadFileIO).
    (* a multipart POST was sent *)

(** References to dictionary objects. *)
Abbreviation loc := nat.

Record state : Type := mkState {
  heap : gmap loc dict;
  net : list net_event;
}.

Definition M (A : Type) : Type := state → result A * state.

#[global] Instance M_ret : MRet M := λ A a s, (Ok a, s).

#[global] Instance M_bind : MBind M := λ A B k m s,
  match m s with
  | (Ok a, s') => k a s'
  | (Raise e, s') => (Raise e, s')
  end.

Definition raise {A : Type} (e : exn) : M A := λ s, (Raise e, s).

(** A pure computation that may raise. *)
Definition lift {A : Type} (r : result A) : M A := λ s, (r, s).

(** [try: m except ...: h]: [h e] is [None] when no clause matches [e],
    which then propagates. *)
Definition try_except {A : Type} (m : M A) (h : exn → option (M A)) : M A :=
  λ s, match m s with
       | (Ok a, s') => (Ok a, s')
       | (Raise e, s') =>
           match h e with
           | Some k => k s'
           | None => (Raise e, s')
           end
       end.

Definition log (ev : net_event) : M unit :=
  λ s, (Ok (), {| heap := heap s; net := net s ++ [ev] |}).

(** A dictionary display [{...}]: a new object in the store. *)
Definition new_dict (d : dict) : M loc :=
  λ s, let l := fresh (dom (heap s)) in
       (Ok l, {| heap := <[l := d]> (heap s); net := net s |}).

(** Reading the dictionary a reference designates. *)
Definition deref (p : loc) : M dict := λ s, (Ok (heap s !!! p), s).

(** [p.update(other)]: in place, the entries of [other] win. *)
Definition dict_update (p : loc) (other : dict) : M unit :=
  λ s, (Ok (), {| heap := <[p := other ∪ (heap s !!! p)]> (heap s);
                  net := net s |}).

(** Bytes read from response bodies, according to a log. *)
Fixpoint bytes_read (evs : list net_event) : Z :=
  match evs with
  | [] => 0
  | NetRead c :: evs => Z.of_nat (length c) + bytes_read evs
  | _ :: evs => bytes_read evs
  end.

(** The GETs of a log: openings and reads of bodies. *)
Definition is_get (ev : net_event) : bool :=
  match ev with
  | NetGet _ _ _ | NetRead _ => true
  | NetPost _ _ => false
  end.

Definition gets (evs : list net_event) : list net_event :=
  List.filter is_get evs.

(** ** The endpoint *)

Section Endpoint.

Context {JSON : Type}.
Variable K : SauceConstants.
Variable httpx : Httpx JSON.
Variable self : SauceEndpoint.

(** [self.client.stream("GET", url=..., headers=..., timeout=...)]. *)
Definition stream_open (method : string) (url : HostUrl)
    (hs : gmap string string) (timeout : Z) : M StreamResponse :=
  log (NetGet url hs timeout);;
  match client_stream self method url hs timeout with
  | inl m => raise (HTTPError m)
  | inr response => mret response
  end.

(** The loop of [fetch]: [async for stream in response.stream]. *)
Fixpoint fetch_loop (items : list stream_item) (file : UploadFileIO)
    (size : Z) : M (UploadFileIO * Z) :=
  match items with
  | [] => mret (file, size)
  | StreamFailure m :: _ => raise (HTTPError m)
  | Chunk b :: rest =>
      log (NetRead b);;
      let '(file, n) := write file b in
      let size := size + n in
      if size >? IMAGE_MAXIMUM_SIZE K
      then raise ImageSourceOversizedException
      else fetch_loop rest file size
  end.

(** The [try] block of [fetch]. *)
Definition fetch_body (host : HostUrl) : M UploadFileIO :=
  let file := UploadFileIO_new in
  let size := 0 in
  response ← stream_open "GET" host (IMAGE_HEADERS K) (IMAGE_TIMEOUT K);
  oversized ← lift (py_gt (get (headers response) "content-length" (PInt (-1)))
                          (PInt (IMAGE_MAXIMUM_SIZE K)));
  (if oversized : bool then raise ImageSourceOversizedException else mret ());;
  '(file, size) ← fetch_loop (stream response) file size;
  mret (seek file 0).

Definition fetch (host : HostUrl) : M UploadFileIO :=
  try_except (fetch_body host)
    (λ e, if isinstance_HTTPError e
          then Some (raise (UnavailableSourceException (Some (str e))))
          else None).

(** [response.raise_for_status()]. *)
Definition raise_for_status (response : Response) : M unit :=
  if is_error httpx (status_code response)
  then raise (HTTPStatusError (status_message httpx response) response)
  else mret ().

(** [self.client.post(url=..., files={"file": file})]. *)
Definition post (url : string) (file : UploadFileIO) : M Response :=
  log (NetPost url file);;
  match client_post self url file with
  | inl m => raise (HTTPError m)
  | inr response => mret response
  end.

(** [response.json()]. *)
Definition response_json (response : Response) : M JSON :=
  match json httpx (text response) with
  | Some j => mret j
  | None => raise JSONDecodeError
  end.

Definition request (file : UploadFileIO) (params : loc) : M JSON :=
  dict_update params {[ "api_key" := API_KEY K; "output_type" := PInt 2 ]};;
  response ← try_except
    (p ← deref params;
     response ← post (_join self base "search.php" p) file;
     raise_for_status response;;
     mret response)
    (λ e, match e with
          | HTTPStatusError _ r =>
              Some (raise (UpstreamAPIException (Some (text r))))
          | HTTPError _ => Some (raise (UpstreamAPIException None))
          | _ => None
          end);
  response_json response.

Definition search (url : option HostUrl) (file : option UploadFileIO)
    (size : Z) (deduplicate : DeduplicateType)
    (database enabled_mask disabled_mask : option Z) : M JSON :=
  file ← match url with
         | Some u => f ← fetch u; mret (Some f)
         | None => mret file
         end;
  match file with
  | None => raise AssertionError
  | Some file =>
      params ← new_dict {[ "dbmask" := of_optional_int enabled_mask;
                           "dbmaski" := of_optional_int disabled_mask;
                           "db" := of_optional_int database;
                           "numres" := PInt size;
                           "dedupe" := PInt (DeduplicateType_value deduplicate) ]};
      request file params
  end.

(** The keyword defaults of [search]. *)
Definition search_defaults (url : option HostUrl) (file : option UploadFileIO)
    : M JSON :=
  search url file 30 ALL None None None.

(** Modelled from the spec: the caller of the endpoint (the routing layer)
    is missing; the spec says that the validated host is constructed once
    per request, before the endpoint is called with it. *)
Definition validated_fetch (u : Url) : M UploadFileIO :=
  host ← lift (HostUrl_validate K u);
  fetch host.

Definition validated_search (u : Url) (size : Z)
    (deduplicate : DeduplicateType)
    (database enabled_mask disabled_mask : option Z) : M JSON :=
  host ← lift (HostUrl_validate K u);
  search (Some host) None size deduplicate database enabled_mask disabled_mask.

End Endpoint.

(** ** Measures on bodies, buffers and logs *)

(** The size of a body: the bytes of all its chunks. *)
Fixpoint body_size (items : list stream_item) : Z :=
  match items with
  | [] => 0
  | Chunk b :: items => Z.of_nat (length b) + body_size items
  | StreamFailure _ :: items => body_size items
  end.

(** A buffer whose cursor is at its end, as [fetch] keeps it while it
    writes. *)
Definition at_end (f : UploadFileIO) : Prop := pos f = length (data f).

(** The log after [evs] more events. *)
Definition logged (s : state) (evs : list net_event) : state :=
  {| heap := heap s; net := net s ++ evs |}.

(** The bytes of a list of chunks. *)
Definition total (cs : list (list Byte.byte)) : Z := body_size (Chunk <$> cs).

(** What a run of the loop amounts to, for each of its outcomes: [cs] are
    the chunks it read. *)
Definition loop_outcome (K : SauceConstants) (items : list stream_item)
    (file : UploadFileIO) (size : Z) (cs : list (list Byte.byte))
    (r : result (UploadFileIO * Z)) : Prop :=
  match r with
  | Ok (f', size') =>
      items = Chunk <$> cs ∧ data f' = data file ++ concat cs ∧ at_end f' ∧
      size' = size + total cs ∧ size' ≤ IMAGE_MAXIMUM_SIZE K
  | Raise ImageSourceOversizedException =>
      ∃ init last tail,
        cs = init ++ [last] ∧ items = (Chunk <$> cs) ++ tail ∧
        size + total init ≤ IMAGE_MAXIMUM_SIZE K ∧
        IMAGE_MAXIMUM_SIZE K < size + total cs
  | Raise (HTTPError m) =>
      ∃ tail,
        items = (Chunk <$> cs) ++ StreamFailure m :: tail ∧
        size + total cs ≤ IMAGE_MAXIMUM_SIZE K
  | Raise _ => False
  end.

(** ** Names for the parts of a run of [fetch] *)

(** What the network answers to the GET of [fetch]. *)
Definition answer (K : SauceConstants) (self : SauceEndpoint) (host : HostUrl)
    : string + StreamResponse :=
  client_stream self "GET" host (IMAGE_HEADERS K) (IMAGE_TIMEOUT K).

(** The comparison of the header check of [fetch]. *)
Definition declared_oversized (K : SauceConstants) (r : StreamResponse)
    : result bool :=
  py_gt (get (headers r) "content-length" (PInt (-1)))
        (PInt (IMAGE_MAXIMUM_SIZE K)).

(** The log entry of the GET of [fetch]. *)
Definition opened (K : SauceConstants) (host : HostUrl) : net_event :=
  NetGet host (IMAGE_HEADERS K) (IMAGE_TIMEOUT K).

(** ** Names for the parts of a run of [request] and [search] *)

(** The dictionary [d] after [d.update({"api_key": ..., "output_type": 2})]. *)
Definition merged (K : SauceConstants) (d : dict) : dict :=
  {[ "api_key" := API_KEY K; "output_type" := PInt 2 ]} ∪ d.

(** The URL [request] posts to when its [params] hold [d] at the call. *)
Definition target (K : SauceConstants) (self : SauceEndpoint) (d : dict)
    : string :=
  _join self base "search.php" (merged K d).

(** The store after the update of [request]. *)
Definition updated (K : SauceConstants) (p : loc) (s : state) : state :=
  {| heap := <[p := merged K (heap s !!! p)]> (heap s); net := net s |}.

(** The dictionary display that [search] passes as [params]. *)
Definition search_params (size : Z) (deduplicate : DeduplicateType)
    (database enabled_mask disabled_mask : option Z) : dict :=
  {[ "dbmask" := of_optional_int enabled_mask;
     "dbmaski" := of_optional_int disabled_mask;
     "db" := of_optional_int database;
     "numres" := PInt size;
     "dedupe" := PInt (DeduplicateType_value deduplicate) ]}.

(** The store after [search] made its [params] from [d]. *)
Definition with_params (d : dict) (s : state) : state :=
  {| heap := <[fresh (dom (heap s)) := d]> (heap s); net := net s |}.

(** ** A sample configuration and network *)

Module Sample.

Definition K : SauceConstants :=
  {| API_KEY := PStr "secret";
     IMAGE_HEADERS := {[ "user-agent" := "HibiAPI" ]};
     IMAGE_TIMEOUT := 20;
     IMAGE_MAXIMUM_SIZE := 1024;
     IMAGE_ALLOWED_HOST := ["saucenao.com"; "i.pximg.net"] |}.

(** httpx with JSON documents kept as their text; [raise_for_status]
    raises on 4xx and 5xx. *)
Definition httpx : Httpx string :=
  {| is_error := λ c, Z.leb 400 c && Z.ltb c 600;
     status_message := λ r, "error response";
     json := λ t, if decide (t = "") then None else Some t |}.

(** An endpoint whose network answers [g] to every GET and [p] to every
    POST. *)
Definition endpoint (g : string + StreamResponse) (p : string + Response)
    : SauceEndpoint :=
  {| client_stream := λ _ _ _ _, g;
     client_post := λ _ _, p;
     _join := λ b path params,
       b +:+ "/" +:+ path +:+ "?" +:+
       (if decide (params !! "api_key" = Some (API_KEY K))
        then "api_key=secret" else "") |}.

Definition host : HostUrl :=
  Validated {| url_text := "https://saucenao.com/img/sample.jpg";
               url_host := "saucenao.com" |}.

Definition evil : Url :=
  {| url_text := "https://example.org/x.png"; url_host := "example.org" |}.

Definition s0 : state := {| heap := ∅; net := [] |}.

(** A chunk of [n] bytes. *)
Definition chunk (n : nat) : list Byte.byte := replicate n Byte.x2a.

(** A response that declares [v] as its length and delivers [body]. *)
Definition declaring (v : pyval) (body : list stream_item) : StreamResponse :=
  {| headers := {[ "content-length" := v ]}; stream := body |}.

(** A response without a declared length. *)
Definition undeclared (body : list stream_item) : StreamResponse :=
  {| headers := ∅; stream := body |}.

Definition no_post : string + Response := inl "unused".

Definition no_get : string + StreamResponse := inl "unused".

End Sample.

(** * Properties *)

(** ** Running the monad *)

Lemma run_bind {A B : Type} (m : M A) (k : A → M B) (s : state) :
  (m ≫= k) s =
  match m s with
  | (Ok a, s') => k a s'
  | (Raise e, s') => (Raise e, s')
  end.
Proof. reflexivity. Qed.

Lemma run_ret {A : Type} (a : A) (s : state) : mret (M := M) a s = (Ok a, s).
Proof. reflexivity. Qed.

Lemma run_raise {A : Type} (e : exn) (s : state) :
  raise (A := A) e s = (Raise e, s).
Proof. reflexivity. Qed.

Lemma run_log (ev : net_event) (s : state) :
  log ev s = (Ok (), {| heap := heap s; net := net s ++ [ev] |}).
Proof. reflexivity. Qed.

Ltac run :=
  repeat (rewrite ?run_bind, ?run_ret, ?run_raise, ?run_log; cbn [fst snd heap net]).

(** ** The buffer *)

Lemma write_at_end (f : UploadFileIO) (b : list Byte.byte) :
  at_end f →
  data (write f b).1 = data f ++ b ∧ at_end (write f b).1.
Proof.
  unfold at_end, write. cbn [fst data pos]. intros ->.
  rewrite firstn_all, Nat.sub_diag, drop_ge by lia.
  cbn [replicate]. rewrite app_nil_r, length_app. auto.
Qed.

Lemma body_size_nonneg (items : list stream_item) : 0 ≤ body_size items.
Proof.
  induction items as [|[b|m] items IH]; cbn [body_size] in *; lia.
Qed.

Lemma body_size_app (l1 l2 : list stream_item) :
  body_size (l1 ++ l2) = body_size l1 + body_size l2.
Proof.
  induction l1 as [|[b|m] l1 IH]; cbn [body_size app] in *; lia.
Qed.

Lemma bytes_read_app (l1 l2 : list net_event) :
  bytes_read (l1 ++ l2) = bytes_read l1 + bytes_read l2.
Proof.
  induction l1 as [|[| |] l1 IH]; cbn [bytes_read app] in *; lia.
Qed.

Section FetchFacts.

Variable K : SauceConstants.
Variable self : SauceEndpoint.

(** The loop keeps the cursor at the end of the buffer, counts exactly the
    bytes that are in it, and returns normally only below the cap. *)
Lemma fetch_loop_returns (items : list stream_item) :
  ∀ (file : UploadFileIO) (size : Z) (s : state) f' size' s',
    at_end file →
    size = Z.of_nat (length (data file)) →
    size ≤ IMAGE_MAXIMUM_SIZE K →
    fetch_loop K items file size s = (Ok (f', size'), s') →
    at_end f' ∧ size' = Z.of_nat (length (data f')) ∧
    size' ≤ IMAGE_MAXIMUM_SIZE K.
Proof.
  induction items as [|[b|m] items IH]; intros file size s f' size' s' He Hs Hle;
    cbn [fetch_loop]; run.
  - intros [= <- <- <-]. auto.
  - destruct (write file b) as [file1 n] eqn:Hw.
    destruct (write_at_end file b He) as [Hd He1].
    rewrite Hw in Hd, He1. cbn [fst] in Hd, He1.
    assert (n = Z.of_nat (length b)) as -> by (unfold write in Hw; congruence).
    destruct (Z.gtb_spec (size + Z.of_nat (length b)) (IMAGE_MAXIMUM_SIZE K)).
    + run. discriminate.
    + apply IH; [assumption | | assumption].
      rewrite Hd, length_app. lia.
  - discriminate.
Qed.

Lemma logged_nil (s : state) : logged s [] = s.
Proof. destruct s. unfold logged. cbn. by rewrite app_nil_r. Qed.

Lemma logged_logged (s : state) (l1 l2 : list net_event) :
  logged (logged s l1) l2 = logged s (l1 ++ l2).
Proof. unfold logged. cbn. by rewrite app_assoc. Qed.

(** A body that crosses the cap within its chunks [cs]: the loop raises at
    the first chunk [last] that brings the count over the cap, having read
    nothing behind it. *)
Lemma fetch_loop_oversized (cs : list (list Byte.byte)) :
  ∀ (tail : list stream_item) (file : UploadFileIO) (size : Z) (s : state),
    size ≤ IMAGE_MAXIMUM_SIZE K →
    IMAGE_MAXIMUM_SIZE K < size + body_size (Chunk <$> cs) →
    ∃ consumed last rest,
      cs = consumed ++ last :: rest ∧
      size + body_size (Chunk <$> consumed) ≤ IMAGE_MAXIMUM_SIZE K ∧
      fetch_loop K ((Chunk <$> cs) ++ tail) file size s =
        (Raise ImageSourceOversizedException,
         logged s (NetRead <$> (consumed ++ [last]))).
Proof.
  induction cs as [|b cs IH]; intros tail file size s Hle Hgt.
  - cbn [fmap list_fmap body_size] in Hgt. lia.
  - cbn [fmap list_fmap body_size app fetch_loop] in Hgt |- *. run.
    destruct (write file b) as [file1 n] eqn:Hw.
    assert (n = Z.of_nat (length b)) as -> by (unfold write in Hw; congruence).
    destruct (Z.gtb_spec (size + Z.of_nat (length b)) (IMAGE_MAXIMUM_SIZE K))
      as [Hover|Hunder].
    + exists [], b, cs. cbn [app fmap list_fmap body_size]. run.
      split; [reflexivity|]. split; [lia|reflexivity].
    + destruct (IH tail file1 (size + Z.of_nat (length b))
                  {| heap := heap s; net := net s ++ [NetRead b] |})
        as (consumed & last & rest & -> & Hc & Hrun); [lia | |].
      { fold (@fmap list _ _ _ Chunk cs) in Hgt. lia. }
      exists (b :: consumed), last, rest.
      split; [reflexivity|]. split.
      { cbn [fmap list_fmap body_size]. fold (@fmap list _ _ _ Chunk consumed). lia. }
      fold (@fmap list _ _ _ Chunk (consumed ++ last :: rest)).
      rewrite Hrun. unfold logged. cbn [heap net app fmap list_fmap].
      by rewrite <- app_assoc.
Qed.

(** A body whose transport fails after the chunks [cs], all below the cap:
    the loop raises the transport error, having read exactly [cs]. *)
Lemma fetch_loop_failure (cs : list (list Byte.byte)) :
  ∀ (m : string) (tail : list stream_item) (file : UploadFileIO) (size : Z)
    (s : state),
    size + body_size (Chunk <$> cs) ≤ IMAGE_MAXIMUM_SIZE K →
    fetch_loop K ((Chunk <$> cs) ++ StreamFailure m :: tail) file size s =
      (Raise (HTTPError m), logged s (NetRead <$> cs)).
Proof.
  induction cs as [|b cs IH]; intros m tail file size s Hle.
  - cbn [fmap list_fmap app fetch_loop]. run. by rewrite logged_nil.
  - cbn [fmap list_fmap body_size app fetch_loop] in Hle |- *. run.
    fold (@fmap list _ _ _ Chunk cs) in Hle |- *.
    destruct (write file b) as [file1 n] eqn:Hw.
    assert (n = Z.of_nat (length b)) as -> by (unfold write in Hw; congruence).
    pose proof (body_size_nonneg (Chunk <$> cs)).
    destruct (Z.gtb_spec (size + Z.of_nat (length b)) (IMAGE_MAXIMUM_SIZE K));
      [lia|].
    rewrite IH by lia. unfold logged. cbn [heap net fmap list_fmap].
    by rewrite <- app_assoc.
Qed.

End FetchFacts.

Lemma bytes_read_NetRead (cs : list (list Byte.byte)) :
  bytes_read (NetRead <$> cs) = body_size (Chunk <$> cs).
Proof.
  induction cs as [|b cs IH]; cbn [fmap list_fmap bytes_read body_size] in *;
    [reflexivity|].
  fold (@fmap list _ _ _ NetRead cs). fold (@fmap list _ _ _ Chunk cs). lia.
Qed.

(** ** fetch *)

Section Fetch.

Variable K : SauceConstants.
Variable self : SauceEndpoint.
Variable host : HostUrl.

Lemma fetch_body_open_failure (s : state) (m : string) :
  answer K self host = inl m →
  fetch_body K self host s = (Raise (HTTPError m), logged s [opened K host]).
Proof.
  unfold answer, fetch_body, stream_open. intros H. run. by rewrite H.
Qed.

Lemma fetch_body_check_raises (s : state) (r : StreamResponse) (e : exn) :
  answer K self host = inr r → declared_oversized K r = Raise e →
  fetch_body K self host s = (Raise e, logged s [opened K host]).
Proof.
  unfold answer, declared_oversized, fetch_body, stream_open, lift.
  intros H Hc. run. rewrite H. run. by rewrite Hc.
Qed.

Lemma fetch_body_declared (s : state) (r : StreamResponse) :
  answer K self host = inr r → declared_oversized K r = Ok true →
  fetch_body K self host s =
    (Raise ImageSourceOversizedException, logged s [opened K host]).
Proof.
  unfold answer, declared_oversized, fetch_body, stream_open, lift.
  intros H Hc. run. rewrite H. run. rewrite Hc. by run.
Qed.

Lemma fetch_body_streams (s : state) (r : StreamResponse) :
  answer K self host = inr r → declared_oversized K r = Ok false →
  fetch_body K self host s =
    match fetch_loop K (stream r) UploadFileIO_new 0 (logged s [opened K host]) with
    | (Ok (file, _), s') => (Ok (seek file 0), s')
    | (Raise e, s') => (Raise e, s')
    end.
Proof.
  unfold answer, declared_oversized, fetch_body, stream_open, lift.
  intros H Hc. run. rewrite H. run. rewrite Hc. run.
  unfold opened.
  fold (logged s [NetGet host (IMAGE_HEADERS K) (IMAGE_TIMEOUT K)]).
  by destruct (fetch_loop _ _ _ _ _) as [[[file size]|e] s'].
Qed.

(** The handler of [fetch] lets everything through that is no
    [HTTPError]. *)
Lemma fetch_passes (s s' : state) (e : exn) :
  fetch_body K self host s = (Raise e, s') →
  isinstance_HTTPError e = false →
  fetch K self host s = (Raise e, s').
Proof. unfold fetch, try_except. by intros -> ->. Qed.

Lemma fetch_wraps (s s' : state) (m : string) :
  fetch_body K self host s = (Raise (HTTPError m), s') →
  fetch K self host s = (Raise (UnavailableSourceException (Some m)), s').
Proof. unfold fetch, try_except. by intros ->. Qed.

(** A declared length that is an [int] above the cap: oversized at once,
    nothing read. *)
Lemma fetch_declared_int (s : state) (r : StreamResponse) (n : Z) :
  answer K self host = inr r →
  headers r !! "content-length" = Some (PInt n) →
  IMAGE_MAXIMUM_SIZE K < n →
  fetch K self host s =
    (Raise ImageSourceOversizedException, logged s [opened K host]).
Proof.
  intros H Hh Hn. apply fetch_passes; [|reflexivity].
  apply (fetch_body_declared s r H).
  unfold declared_oversized, get. rewrite Hh. cbn [py_gt].
  f_equal. apply Z.gtb_lt. lia.
Qed.

(** A declared length that is a [str], which is what httpx hands out: the
    comparison with the cap raises [TypeError], whatever the length is. *)
Lemma fetch_declared_str (s : state) (r : StreamResponse) (v : string) :
  answer K self host = inr r →
  headers r !! "content-length" = Some (PStr v) →
  fetch K self host s = (Raise TypeError, logged s [opened K host]).
Proof.
  intros H Hh. apply fetch_passes; [|reflexivity].
  apply (fetch_body_check_raises s r _ H).
  unfold declared_oversized, get. by rewrite Hh.
Qed.

(** No declared length and a body that crosses the cap within the chunks
    [cs]: oversized at the first chunk [last] that crosses it; what was read
    before [last] is within the cap, and nothing behind [last] is read. *)
Lemma fetch_streaming_cap (s : state) (r : StreamResponse)
    (cs : list (list Byte.byte)) (tail : list stream_item) :
  0 ≤ IMAGE_MAXIMUM_SIZE K →
  answer K self host = inr r →
  headers r !! "content-length" = None →
  stream r = (Chunk <$> cs) ++ tail →
  IMAGE_MAXIMUM_SIZE K < body_size (Chunk <$> cs) →
  ∃ consumed last rest,
    cs = consumed ++ last :: rest ∧
    body_size (Chunk <$> consumed) ≤ IMAGE_MAXIMUM_SIZE K ∧
    fetch K self host s =
      (Raise ImageSourceOversizedException,
       logged s (opened K host :: (NetRead <$> (consumed ++ [last])))) ∧
    bytes_read (NetRead <$> (consumed ++ [last])) ≤
      IMAGE_MAXIMUM_SIZE K + Z.of_nat (length last).
Proof.
  intros Hmax H Hh Hs Hgt.
  destruct (fetch_loop_oversized K cs tail UploadFileIO_new 0
              (logged s [opened K host]) Hmax)
    as (consumed & last & rest & Hcs & Hc & Hrun); [lia|].
  exists consumed, last, rest. split; [assumption|]. split; [lia|]. split.
  - apply fetch_passes; [|reflexivity].
    rewrite (fetch_body_streams s r H).
    + rewrite Hs, Hrun. by rewrite logged_logged.
    + unfold declared_oversized, get. rewrite Hh. cbn [py_gt].
      f_equal. rewrite Z.gtb_ltb. apply Z.ltb_ge. lia.
  - rewrite bytes_read_NetRead, fmap_app, body_size_app.
    cbn [fmap list_fmap body_size]. lia.
Qed.

End Fetch.

(** ** The contract of fetch *)

(** C1.  A response that declares a length over the cap.  httpx hands the
    declared length out as a [str]; at max = 1024 and
    [content-length: 2048] the comparison of the header check raises, and
    [fetch] fails with [TypeError] instead of
    [ImageSourceOversizedException].  Nothing of the body is read. *)
Theorem fetch_declared_length_raises_TypeError :
  let r := Sample.declaring (PStr "2048") [Chunk (Sample.chunk 2048)] in
  let run := fetch Sample.K (Sample.endpoint (inr r) Sample.no_post)
                   Sample.host Sample.s0 in
  run.1 = Raise TypeError ∧
  run.1 ≠ Raise ImageSourceOversizedException ∧
  bytes_read (net run.2) = 0.
Proof.
  cbv zeta.
  rewrite (fetch_declared_str Sample.K _ Sample.host Sample.s0
             (Sample.declaring (PStr "2048") [Chunk (Sample.chunk 2048)])
             "2048"); [|reflexivity|reflexivity].
  cbn [fst snd]. split; [reflexivity|]. split; [discriminate|reflexivity].
Qed.

(** C2.  A response that understates its length and delivers a body over
    the cap: at max = 1024, [content-length: 512] and three chunks of 512
    bytes, [fetch] fails with [TypeError] in the header check instead of
    [ImageSourceOversizedException] in the loop. *)
Theorem fetch_understated_length_raises_TypeError :
  let body := [Chunk (Sample.chunk 512); Chunk (Sample.chunk 512);
               Chunk (Sample.chunk 512)] in
  let r := Sample.declaring (PStr "512") body in
  let run := fetch Sample.K (Sample.endpoint (inr r) Sample.no_post)
                   Sample.host Sample.s0 in
  IMAGE_MAXIMUM_SIZE Sample.K < body_size body ∧
  run.1 = Raise TypeError ∧
  run.1 ≠ Raise ImageSourceOversizedException.
Proof.
  cbv zeta. split; [reflexivity|].
  rewrite (fetch_declared_str Sample.K _ Sample.host Sample.s0
             (Sample.declaring (PStr "512")
                [Chunk (Sample.chunk 512); Chunk (Sample.chunk 512);
                 Chunk (Sample.chunk 512)]) "512");
    [|reflexivity|reflexivity].
  cbn [fst]. split; [reflexivity|discriminate].
Qed.

(** C3.  A [fetch] that returns hands out a buffer whose cursor is at 0
    and whose size is at most the maximum (a size: not negative). *)
Theorem fetch_returns_rewound_within_cap (K : SauceConstants)
    (self : SauceEndpoint) (host : HostUrl) (s s' : state)
    (f : UploadFileIO) :
  0 ≤ IMAGE_MAXIMUM_SIZE K →
  fetch K self host s = (Ok f, s') →
  pos f = 0%nat ∧ Z.of_nat (length (data f)) ≤ IMAGE_MAXIMUM_SIZE K.
Proof.
  intros Hmax. unfold fetch, try_except.
  destruct (fetch_body K self host s) as [[f0|e] s1] eqn:Hb.
  - intros [= <- <-].
    destruct (answer K self host) as [m|r] eqn:Ha.
    { rewrite (fetch_body_open_failure K self host s m Ha) in Hb. discriminate. }
    destruct (declared_oversized K r) as [[|]|e] eqn:Hc.
    { rewrite (fetch_body_declared K self host s r Ha Hc) in Hb. discriminate. }
    2:{ rewrite (fetch_body_check_raises K self host s r e Ha Hc) in Hb.
        discriminate. }
    rewrite (fetch_body_streams K self host s r Ha Hc) in Hb.
    destruct (fetch_loop _ _ _ _ _) as [[[file size]|e] s2] eqn:Hl;
      [|discriminate].
    injection Hb as <- <-.
    destruct (fetch_loop_returns K (stream r) UploadFileIO_new 0
                (logged s [opened K host]) file size s2)
      as (He & Hsz & Hle); [reflexivity|reflexivity|assumption|exact Hl|].
    cbn [seek pos data]. split; [reflexivity|lia].
  - destruct (isinstance_HTTPError e); discriminate.
Qed.

Lemma fetch_returns_rewound_within_cap_witness :
  pos (mkFile (Sample.chunk 1000) 0) = 0%nat ∧
  Z.of_nat (length (data (mkFile (Sample.chunk 1000) 0))) ≤
    IMAGE_MAXIMUM_SIZE Sample.K.
Proof.
  apply (fetch_returns_rewound_within_cap Sample.K
           (Sample.endpoint
              (inr (Sample.undeclared [Chunk (Sample.chunk 400);
                                       Chunk (Sample.chunk 600)]))
              Sample.no_post)
           Sample.host Sample.s0
           (logged Sample.s0
              [opened Sample.K Sample.host; NetRead (Sample.chunk 400);
               NetRead (Sample.chunk 600)])).
  - vm_compute. discriminate.
  - vm_compute. reflexivity.
Defined.

(** C5.  Transport errors of the GET, when it is opened or while the body
    is read below the cap, come out of [fetch] as
    [UnavailableSourceException] with the text of the error as detail; an
    [ImageSourceOversizedException] raised in the [try] block leaves
    [fetch] as it is. *)
Theorem fetch_transport_error_unavailable (K : SauceConstants)
    (self : SauceEndpoint) (host : HostUrl) (s : state) :
  (∀ m, answer K self host = inl m →
        (fetch K self host s).1 = Raise (UnavailableSourceException (Some m)) ∧
        str (HTTPError m) = m) ∧
  (∀ r cs m tail,
      answer K self host = inr r →
      declared_oversized K r = Ok false →
      stream r = (Chunk <$> cs) ++ StreamFailure m :: tail →
      body_size (Chunk <$> cs) ≤ IMAGE_MAXIMUM_SIZE K →
      (fetch K self host s).1 = Raise (UnavailableSourceException (Some m))) ∧
  (∀ s', fetch_body K self host s = (Raise ImageSourceOversizedException, s') →
         fetch K self host s = (Raise ImageSourceOversizedException, s')).
Proof.
  split; [|split].
  - intros m Ha. split; [|reflexivity].
    by rewrite (fetch_wraps K self host s _ m
                  (fetch_body_open_failure K self host s m Ha)).
  - intros r cs m tail Ha Hc Hs Hle.
    erewrite fetch_wraps; [reflexivity|].
    rewrite (fetch_body_streams K self host s r Ha Hc), Hs.
    rewrite fetch_loop_failure by lia. reflexivity.
  - intros s' Hb. by apply fetch_passes.
Qed.

Lemma fetch_transport_error_unavailable_witness :
  (fetch Sample.K (Sample.endpoint (inl "connection refused") Sample.no_post)
         Sample.host Sample.s0).1
    = Raise (UnavailableSourceException (Some "connection refused")) ∧
  (fetch Sample.K
         (Sample.endpoint
            (inr (Sample.undeclared
                    [Chunk (Sample.chunk 400); StreamFailure "timed out";
                     Chunk (Sample.chunk 400)]))
            Sample.no_post)
         Sample.host Sample.s0).1
    = Raise (UnavailableSourceException (Some "timed out")) ∧
  fetch Sample.K
        (Sample.endpoint
           (inr (Sample.undeclared [Chunk (Sample.chunk 2000)])) Sample.no_post)
        Sample.host Sample.s0
    = (Raise ImageSourceOversizedException,
       logged Sample.s0 [opened Sample.K Sample.host;
                         NetRead (Sample.chunk 2000)]).
Proof.
  split; [|split].
  - apply (proj1 (fetch_transport_error_unavailable Sample.K
             (Sample.endpoint (inl "connection refused") Sample.no_post)
             Sample.host Sample.s0) "connection refused").
    reflexivity.
  - apply (proj1 (proj2 (fetch_transport_error_unavailable Sample.K _
             Sample.host Sample.s0))
             (Sample.undeclared
                [Chunk (Sample.chunk 400); StreamFailure "timed out";
                 Chunk (Sample.chunk 400)])
             [Sample.chunk 400] "timed out" [Chunk (Sample.chunk 400)]).
    + reflexivity.
    + reflexivity.
    + reflexivity.
    + vm_compute. discriminate.
  - apply (proj2 (proj2 (fetch_transport_error_unavailable Sample.K _
             Sample.host Sample.s0))).
    vm_compute. reflexivity.
Defined.

(** ** request *)

Section Request.

Context {JSON : Type}.
Variable K : SauceConstants.
Variable httpx : Httpx JSON.
Variable self : SauceEndpoint.

(** [request], run: the update, the POST, and the outcome by cases on what
    the network answers. *)
Lemma request_run (file : UploadFileIO) (p : loc) (s : state) :
  request K httpx self file p s =
    let s2 := logged (updated K p s)
                [NetPost (target K self (heap s !!! p)) file] in
    match client_post self (target K self (heap s !!! p)) file with
    | inl m => (Raise (UpstreamAPIException None), s2)
    | inr response =>
        if is_error httpx (status_code response)
        then (Raise (UpstreamAPIException (Some (text response))), s2)
        else match json httpx (text response) with
             | Some j => (Ok j, s2)
             | None => (Raise JSONDecodeError, s2)
             end
    end.
Proof.
  unfold request, dict_update, try_except, deref, post, raise_for_status,
    response_json, target, updated, merged, logged.
  run. cbn [heap net]. rewrite lookup_total_insert_eq.
  destruct (client_post self _ file) as [m|response]; run; [reflexivity|].
  destruct (is_error httpx (status_code response)); run; [reflexivity|].
  by destruct (json httpx (text response)).
Qed.

End Request.

(** C4.  The upstream answers the POST with a status on which
    [raise_for_status] raises: [request] fails with
    [UpstreamAPIException] whose detail is the text of the answer. *)
Theorem request_error_status {JSON : Type} (K : SauceConstants)
    (httpx : Httpx JSON) (self : SauceEndpoint) (file : UploadFileIO)
    (p : loc) (s : state) (response : Response) :
  client_post self (target K self (heap s !!! p)) file = inr response →
  is_error httpx (status_code response) = true →
  (request K httpx self file p s).1 =
    Raise (UpstreamAPIException (Some (text response))).
Proof. intros Hp He. rewrite request_run. cbv zeta. by rewrite Hp, He. Qed.

Lemma request_error_status_witness :
  (request Sample.K Sample.httpx
     (Sample.endpoint Sample.no_get (inr (mkResponse 403 "Forbidden: bad key")))
     (mkFile (Sample.chunk 8) 0) 0%nat (with_params ∅ Sample.s0)).1
  = Raise (UpstreamAPIException (Some "Forbidden: bad key")).
Proof.
  apply (request_error_status Sample.K Sample.httpx
           (Sample.endpoint Sample.no_get
              (inr (mkResponse 403 "Forbidden: bad key")))
           (mkFile (Sample.chunk 8) 0) 0%nat (with_params ∅ Sample.s0)
           (mkResponse 403 "Forbidden: bad key")).
  - reflexivity.
  - reflexivity.
Defined.

(** C6.  The POST fails below the status level: [request] fails with a
    bare [UpstreamAPIException], no detail given. *)
Theorem request_transport_error {JSON : Type} (K : SauceConstants)
    (httpx : Httpx JSON) (self : SauceEndpoint) (file : UploadFileIO)
    (p : loc) (s : state) (m : string) :
  client_post self (target K self (heap s !!! p)) file = inl m →
  (request K httpx self file p s).1 = Raise (UpstreamAPIException None).
Proof. intros Hp. rewrite request_run. cbv zeta. by rewrite Hp. Qed.

Lemma request_transport_error_witness :
  (request Sample.K Sample.httpx
     (Sample.endpoint Sample.no_get (inl "connection refused"))
     (mkFile (Sample.chunk 8) 0) 0%nat (with_params ∅ Sample.s0)).1
  = Raise (UpstreamAPIException None).
Proof.
  apply (request_transport_error Sample.K Sample.httpx
           (Sample.endpoint Sample.no_get (inl "connection refused"))
           (mkFile (Sample.chunk 8) 0) 0%nat (with_params ∅ Sample.s0)
           "connection refused").
  reflexivity.
Defined.

(** The state [request] leaves, whatever the outcome. *)
Lemma request_state {JSON : Type} (K : SauceConstants) (httpx : Httpx JSON)
    (self : SauceEndpoint) (file : UploadFileIO) (p : loc) (s : state) :
  (request K httpx self file p s).2 =
    logged (updated K p s) [NetPost (target K self (heap s !!! p)) file].
Proof.
  rewrite request_run. cbv zeta.
  destruct (client_post self _ file) as [m|response]; [reflexivity|].
  destruct (is_error httpx (status_code response)); [reflexivity|].
  by destruct (json httpx (text response)).
Qed.

Lemma merged_api_key (K : SauceConstants) (d : dict) :
  merged K d !! "api_key" = Some (API_KEY K).
Proof.
  unfold merged. apply lookup_union_Some_l.
  rewrite lookup_insert_eq. reflexivity.
Qed.

Lemma merged_output_type (K : SauceConstants) (d : dict) :
  merged K d !! "output_type" = Some (PInt 2).
Proof.
  unfold merged. apply lookup_union_Some_l.
  rewrite lookup_insert_ne by discriminate. apply lookup_singleton_eq.
Qed.

Lemma merged_other (K : SauceConstants) (d : dict) (k : string) :
  k ≠ "api_key" → k ≠ "output_type" → merged K d !! k = d !! k.
Proof.
  intros H1 H2. unfold merged. apply lookup_union_r.
  rewrite lookup_insert_ne by congruence.
  apply lookup_singleton_ne. congruence.
Qed.

(** C10.  [request] updates the dictionary it is given, in place: after
    the call, whatever its outcome, the caller's dictionary holds
    [api_key] and [output_type]; its other entries, and all other
    dictionaries, are as before. *)
Theorem request_mutates_params {JSON : Type} (K : SauceConstants)
    (httpx : Httpx JSON) (self : SauceEndpoint) (file : UploadFileIO)
    (p : loc) (s : state) (d : dict) :
  heap s !! p = Some d →
  ∃ d',
    heap (request K httpx self file p s).2 !! p = Some d' ∧
    d' !! "api_key" = Some (API_KEY K) ∧
    d' !! "output_type" = Some (PInt 2) ∧
    (∀ k, k ≠ "api_key" → k ≠ "output_type" → d' !! k = d !! k) ∧
    (∀ q, q ≠ p →
          heap (request K httpx self file p s).2 !! q = heap s !! q).
Proof.
  intros Hd. rewrite request_state. unfold logged, updated. cbn [heap].
  rewrite (lookup_total_correct _ _ _ Hd).
  exists (merged K d). split; [apply lookup_insert_eq|].
  split; [apply merged_api_key|]. split; [apply merged_output_type|].
  split; [apply merged_other|].
  intros q Hq. by apply lookup_insert_ne.
Qed.

Lemma request_mutates_params_witness :
  ∃ d',
    heap (request Sample.K Sample.httpx
            (Sample.endpoint Sample.no_get (inl "connection refused"))
            (mkFile (Sample.chunk 8) 0) 0%nat
            (with_params {[ "numres" := PInt 5 ]} Sample.s0)).2 !! 0%nat
      = Some d' ∧
    d' !! "api_key" = Some (API_KEY Sample.K) ∧
    d' !! "output_type" = Some (PInt 2) ∧
    (∀ k, k ≠ "api_key" → k ≠ "output_type" →
          d' !! k = ({[ "numres" := PInt 5 ]} : dict) !! k) ∧
    (∀ q, q ≠ 0%nat →
          heap (request Sample.K Sample.httpx
                  (Sample.endpoint Sample.no_get (inl "connection refused"))
                  (mkFile (Sample.chunk 8) 0) 0%nat
                  (with_params {[ "numres" := PInt 5 ]} Sample.s0)).2 !! q
          = heap (with_params {[ "numres" := PInt 5 ]} Sample.s0) !! q).
Proof.
  apply (request_mutates_params Sample.K Sample.httpx
           (Sample.endpoint Sample.no_get (inl "connection refused"))
           (mkFile (Sample.chunk 8) 0) 0%nat
           (with_params {[ "numres" := PInt 5 ]} Sample.s0)
           {[ "numres" := PInt 5 ]}).
  reflexivity.
Defined.

(** ** search *)

Lemma search_by_file {JSON : Type} (K : SauceConstants) (httpx : Httpx JSON)
    (self : SauceEndpoint) (f : UploadFileIO) (size : Z)
    (deduplicate : DeduplicateType)
    (database enabled_mask disabled_mask : option Z) (s : state) :
  search K httpx self None (Some f) size deduplicate database enabled_mask
         disabled_mask s =
  request K httpx self f (fresh (dom (heap s)))
    (with_params
       (search_params size deduplicate database enabled_mask disabled_mask) s).
Proof. reflexivity. Qed.

Lemma search_by_url {JSON : Type} (K : SauceConstants) (httpx : Httpx JSON)
    (self : SauceEndpoint) (u : HostUrl) (file : option UploadFileIO)
    (f : UploadFileIO) (size : Z) (deduplicate : DeduplicateType)
    (database enabled_mask disabled_mask : option Z) (s s1 : state) :
  fetch K self u s = (Ok f, s1) →
  search K httpx self (Some u) file size deduplicate database enabled_mask
         disabled_mask s =
  request K httpx self f (fresh (dom (heap s1)))
    (with_params
       (search_params size deduplicate database enabled_mask disabled_mask) s1).
Proof. intros Hf. unfold search. run. rewrite Hf. reflexivity. Qed.

Lemma with_params_lookup (d : dict) (s : state) :
  heap (with_params d s) !!! fresh (dom (heap s)) = d.
Proof. unfold with_params. cbn [heap]. apply lookup_total_insert_eq. Qed.

(** The bundle of a [search] left at its defaults, after [request] merged
    its two fixed values in. *)
Lemma merged_defaults (K : SauceConstants) :
  merged K (search_params 30 ALL None None None) =
  {[ "numres" := PInt 30; "dedupe" := PInt 2; "db" := PNone;
     "dbmask" := PNone; "dbmaski" := PNone;
     "api_key" := API_KEY K; "output_type" := PInt 2 ]}.
Proof. reflexivity. Qed.

(** C7.  A [search] left at its defaults, with its buffer [f] supplied or
    fetched: the POST goes to the URL built from exactly the bundle
    numres=30, dedupe=2, db=None, dbmask=None, dbmaski=None, api_key,
    output_type=2, it carries [f], and when the upstream answers with a
    success status the parsed body is the result. *)
Theorem search_defaults_post {JSON : Type} (K : SauceConstants)
    (httpx : Httpx JSON) (self : SauceEndpoint) (url : option HostUrl)
    (file : option UploadFileIO) (s s1 : state) (f : UploadFileIO) :
  (url = None ∧ file = Some f ∧ s1 = s) ∨
  (∃ u, url = Some u ∧ fetch K self u s = (Ok f, s1)) →
  let bundle : dict :=
    {[ "numres" := PInt 30; "dedupe" := PInt 2; "db" := PNone;
       "dbmask" := PNone; "dbmaski" := PNone;
       "api_key" := API_KEY K; "output_type" := PInt 2 ]} in
  let posted := _join self base "search.php" bundle in
  net (search_defaults K httpx self url file s).2 =
    net s1 ++ [NetPost posted f] ∧
  (∀ response j,
      client_post self posted f = inr response →
      is_error httpx (status_code response) = false →
      json httpx (text response) = Some j →
      (search_defaults K httpx self url file s).1 = Ok j).
Proof.
  intros Hbuf bundle posted.
  assert (search_defaults K httpx self url file s =
          request K httpx self f (fresh (dom (heap s1)))
            (with_params (search_params 30 ALL None None None) s1)) as ->.
  { unfold search_defaults.
    destruct Hbuf as [(-> & -> & ->)|(u & -> & Hf)].
    - apply search_by_file.
    - by apply search_by_url. }
  assert (target K self
            (heap (with_params (search_params 30 ALL None None None) s1)
               !!! fresh (dom (heap s1))) = posted) as Ht.
  { rewrite with_params_lookup. unfold target. by rewrite merged_defaults. }
  split.
  - rewrite request_state, Ht. reflexivity.
  - intros response j Hp He Hj. rewrite request_run. cbv zeta.
    by rewrite Ht, Hp, He, Hj.
Qed.

(** The scenario of the specification: a URL on the allowed host, a 200
    answer of 1000 bytes without a declared length, defaults. *)
Lemma search_defaults_post_witness :
  let self := Sample.endpoint
                (inr (Sample.undeclared [Chunk (Sample.chunk 1000)]))
                (inr (mkResponse 200 "{}")) in
  let run := search_defaults Sample.K Sample.httpx self
               (Some Sample.host) None Sample.s0 in
  net run.2 =
    [opened Sample.K Sample.host; NetRead (Sample.chunk 1000);
     NetPost "https://saucenao.com/search.php?api_key=secret"
             (mkFile (Sample.chunk 1000) 0)] ∧
  run.1 = Ok "{}".
Proof.
  cbv zeta.
  destruct (search_defaults_post Sample.K Sample.httpx
              (Sample.endpoint
                 (inr (Sample.undeclared [Chunk (Sample.chunk 1000)]))
                 (inr (mkResponse 200 "{}")))
              (Some Sample.host) None Sample.s0
              (logged Sample.s0 [opened Sample.K Sample.host;
                                 NetRead (Sample.chunk 1000)])
              (mkFile (Sample.chunk 1000) 0)) as [Hnet Hok].
  - right. exists Sample.host. split; [reflexivity|].
    vm_compute. reflexivity.
  - split.
    + exact Hnet.
    + apply (Hok (mkResponse 200 "{}") "{}"); reflexivity.
Defined.

(** C8.  A [search] by file: the one thing it does on the network is the
    POST, with the supplied buffer; no GET is opened and no body is read;
    under [dedupe] the bundle holds the int of the deduplicate mode: 0 for
    [DISABLED], 1 for [IDENTIFIER], 2 for [ALL]. *)
Theorem search_by_file_no_get {JSON : Type} (K : SauceConstants)
    (httpx : Httpx JSON) (self : SauceEndpoint) (f : UploadFileIO)
    (size : Z) (deduplicate : DeduplicateType)
    (database enabled_mask disabled_mask : option Z) (s : state) :
  ∃ bundle : dict,
    net (search K httpx self None (Some f) size deduplicate database
           enabled_mask disabled_mask s).2 =
      net s ++ [NetPost (_join self base "search.php" bundle) f] ∧
    gets (net (search K httpx self None (Some f) size deduplicate database
                 enabled_mask disabled_mask s).2) = gets (net s) ∧
    bundle !! "dedupe" =
      Some (PInt match deduplicate with
                 | DISABLED => 0
                 | IDENTIFIER => 1
                 | ALL => 2
                 end).
Proof.
  exists (merged K (search_params size deduplicate database enabled_mask
                      disabled_mask)).
  rewrite search_by_file, request_state, with_params_lookup.
  unfold logged, target. cbn [net with_params updated].
  split; [reflexivity|]. split.
  - unfold gets. rewrite List.filter_app. cbn [List.filter is_get].
    apply app_nil_r.
  - rewrite merged_other by discriminate. by destruct deduplicate.
Qed.

(** The scenario of the specification: a file, [deduplicate=DISABLED]. *)
Lemma search_by_file_no_get_witness :
  let self := Sample.endpoint
                (inr (Sample.undeclared [Chunk (Sample.chunk 10)]))
                (inr (mkResponse 200 "{}")) in
  let f := mkFile (Sample.chunk 8) 0 in
  ∃ bundle : dict,
    net (search Sample.K Sample.httpx self None (Some f) 30 DISABLED None
           None None Sample.s0).2 =
      net Sample.s0 ++ [NetPost (_join self base "search.php" bundle) f] ∧
    gets (net (search Sample.K Sample.httpx self None (Some f) 30 DISABLED
                 None None None Sample.s0).2) = gets (net Sample.s0) ∧
    bundle !! "dedupe" = Some (PInt 0).
Proof.
  cbv zeta.
  apply (search_by_file_no_get Sample.K Sample.httpx
           (Sample.endpoint
              (inr (Sample.undeclared [Chunk (Sample.chunk 10)]))
              (inr (mkResponse 200 "{}")))
           (mkFile (Sample.chunk 8) 0) 30 DISABLED None None None Sample.s0).
Defined.

(** ** HostUrl *)

(** C9.  A host that is not in the allow-list: the validated host is not
    constructed, and a fetch or a search that starts from this URL fails
    with the validation error in the state it started in: nothing was
    done on the network. *)
Theorem disallowed_host_rejected {JSON : Type} (K : SauceConstants)
    (httpx : Httpx JSON) (self : SauceEndpoint) (u : Url) (size : Z)
    (deduplicate : DeduplicateType)
    (database enabled_mask disabled_mask : option Z) (s : state) :
  url_host u ∉ IMAGE_ALLOWED_HOST K →
  ∃ e,
    HostUrl_validate K u = Raise e ∧
    validated_fetch K self u s = (Raise e, s) ∧
    validated_search K httpx self u size deduplicate database enabled_mask
      disabled_mask s = (Raise e, s).
Proof.
  intros Hno. exists (ValueError "URL host invalid").
  assert (HostUrl_validate K u = Raise (ValueError "URL host invalid")) as Hv.
  { unfold HostUrl_validate. by rewrite bool_decide_eq_false_2. }
  split; [exact Hv|].
  unfold validated_fetch, validated_search, lift. run.
  rewrite Hv. auto.
Qed.

Lemma disallowed_host_rejected_witness :
  ∃ e,
    HostUrl_validate Sample.K Sample.evil = Raise e ∧
    validated_fetch Sample.K
      (Sample.endpoint (inr (Sample.undeclared [Chunk (Sample.chunk 10)]))
                       Sample.no_post)
      Sample.evil Sample.s0 = (Raise e, Sample.s0) ∧
    validated_search Sample.K Sample.httpx
      (Sample.endpoint (inr (Sample.undeclared [Chunk (Sample.chunk 10)]))
                       Sample.no_post)
      Sample.evil 30 ALL None None None Sample.s0 = (Raise e, Sample.s0).
Proof.
  apply (disallowed_host_rejected Sample.K Sample.httpx
           (Sample.endpoint
              (inr (Sample.undeclared [Chunk (Sample.chunk 10)]))
              Sample.no_post)
           Sample.evil 30 ALL None None None Sample.s0).
  apply (bool_decide_unpack _). vm_compute. exact I.
Defined.

(** * Further properties *)

(** ** The loop of fetch, in full *)

Lemma total_nil : total [] = 0.
Proof. reflexivity. Qed.

Lemma total_cons (b : list Byte.byte) (cs : list (list Byte.byte)) :
  total (b :: cs) = Z.of_nat (length b) + total cs.
Proof. reflexivity. Qed.

Lemma total_app (l1 l2 : list (list Byte.byte)) :
  total (l1 ++ l2) = total l1 + total l2.
Proof. unfold total. by rewrite fmap_app, body_size_app. Qed.

Lemma total_nonneg (cs : list (list Byte.byte)) : 0 ≤ total cs.
Proof. apply body_size_nonneg. Qed.

Lemma total_length_concat (cs : list (list Byte.byte)) :
  total cs = Z.of_nat (length (concat cs)).
Proof.
  induction cs as [|b cs IH]; [reflexivity|].
  rewrite total_cons, IH. cbn [concat]. rewrite length_app. lia.
Qed.

Lemma fetch_loop_spec (K : SauceConstants) (items : list stream_item) :
  ∀ (file : UploadFileIO) (size : Z) (s : state),
    at_end file →
    size ≤ IMAGE_MAXIMUM_SIZE K →
    ∃ cs,
      (fetch_loop K items file size s).2 = logged s (NetRead <$> cs) ∧
      loop_outcome K items file size cs (fetch_loop K items file size s).1.
Proof.
  induction items as [|[b|m] items IH]; intros file size s He Hle;
    cbn [fetch_loop]; run.
  - exists []. cbn [fst snd fmap list_fmap loop_outcome concat].
    rewrite logged_nil, app_nil_r, total_nil.
    repeat split; [assumption|lia|lia].
  - destruct (write file b) as [file1 n] eqn:Hw.
    destruct (write_at_end file b He) as [Hd He1].
    rewrite Hw in Hd, He1. cbn [fst] in Hd, He1.
    assert (n = Z.of_nat (length b)) as -> by (unfold write in Hw; congruence).
    destruct (Z.gtb_spec (size + Z.of_nat (length b)) (IMAGE_MAXIMUM_SIZE K))
      as [Hover|Hunder].
    + exists [b]. run. split; [reflexivity|].
      cbn [loop_outcome]. exists [], b, items.
      rewrite total_nil, total_cons, total_nil.
      repeat split; lia.
    + destruct (IH file1 (size + Z.of_nat (length b))
                  {| heap := heap s; net := net s ++ [NetRead b] |} He1 Hunder)
        as (cs & Hst & Hout).
      exists (b :: cs). split.
      { rewrite Hst. unfold logged. cbn [heap net fmap list_fmap].
        by rewrite <- app_assoc. }
      destruct (fetch_loop K items file1 _ _).1 as [[f' size']|e];
        cbn [loop_outcome] in Hout |- *.
      * destruct Hout as (-> & Hdata & He' & -> & Hle').
        rewrite total_cons. cbn [concat].
        repeat split; [|assumption|lia|lia].
        by rewrite Hdata, Hd, <- app_assoc.
      * destruct e; try contradiction.
        -- destruct Hout as (tail & -> & Hle').
           exists tail. rewrite total_cons. split; [reflexivity|lia].
        -- destruct Hout as (init & last & tail & -> & -> & Hi & Hc).
           exists (b :: init), last, tail.
           cbn [app]. rewrite !total_cons.
           repeat split; lia.
  - exists []. cbn [fst snd fmap list_fmap loop_outcome app].
    rewrite logged_nil, total_nil. split; [reflexivity|].
    exists items. split; [reflexivity|lia].
Qed.

Lemma write_at_end_eq (f : UploadFileIO) (b : list Byte.byte) :
  at_end f →
  write f b = ({| data := data f ++ b; pos := length (data f ++ b) |},
               Z.of_nat (length b)).
Proof.
  unfold at_end, write. intros ->.
  rewrite firstn_all, Nat.sub_diag, drop_ge by lia.
  cbn [replicate]. by rewrite app_nil_r, length_app.
Qed.

(** A body of chunks that stays within the cap is read to its end. *)
Lemma fetch_loop_ok (K : SauceConstants) (cs : list (list Byte.byte)) :
  ∀ (file : UploadFileIO) (size : Z) (s : state),
    at_end file →
    size + total cs ≤ IMAGE_MAXIMUM_SIZE K →
    fetch_loop K (Chunk <$> cs) file size s =
      (Ok ({| data := data file ++ concat cs;
              pos := length (data file ++ concat cs) |},
           size + total cs),
       logged s (NetRead <$> cs)).
Proof.
  induction cs as [|b cs IH]; intros file size s He Hle.
  - cbn [fmap list_fmap fetch_loop concat]. run.
    rewrite logged_nil, app_nil_r, total_nil, Z.add_0_r.
    destruct file as [d p]. unfold at_end in He. cbn in He |- *. by subst.
  - cbn [fmap list_fmap fetch_loop]. run.
    fold (@fmap list _ _ _ Chunk cs).
    rewrite (write_at_end_eq file b He).
    rewrite total_cons in Hle. pose proof (total_nonneg cs).
    destruct (Z.gtb_spec (size + Z.of_nat (length b)) (IMAGE_MAXIMUM_SIZE K));
      [lia|].
    rewrite IH; [|reflexivity|lia].
    cbn [data concat fmap list_fmap]. rewrite total_cons, <- !app_assoc.
    unfold logged. cbn [heap net]. rewrite <- app_assoc.
    by rewrite Z.add_assoc.
Qed.

(** The loop only adds reads to the log, and raises nothing but the
    oversized exception and transport errors. *)
Lemma fetch_loop_shape (K : SauceConstants) (items : list stream_item) :
  ∀ (file : UploadFileIO) (size : Z) (s : state),
    ∃ cs,
      (fetch_loop K items file size s).2 = logged s (NetRead <$> cs) ∧
      ∀ e, (fetch_loop K items file size s).1 = Raise e →
           e = ImageSourceOversizedException ∨ ∃ m, e = HTTPError m.
Proof.
  induction items as [|[b|m] items IH]; intros file size s;
    cbn [fetch_loop]; run.
  - exists []. rewrite logged_nil. split; [reflexivity|discriminate].
  - destruct (write file b) as [file1 n].
    destruct (size + n >? IMAGE_MAXIMUM_SIZE K).
    + exists [b]. run. split; [reflexivity|]. intros e [= <-]. by left.
    + destruct (IH file1 (size + n)
                  {| heap := heap s; net := net s ++ [NetRead b] |})
        as (cs & Hst & Hr).
      exists (b :: cs). split; [|exact Hr].
      rewrite Hst. unfold logged. cbn [heap net fmap list_fmap].
      by rewrite <- app_assoc.
  - exists []. rewrite logged_nil. split; [reflexivity|].
    intros e [= <-]. right. by exists m.
Qed.

(** [fetch] on a response that passed the header check. *)
Lemma fetch_streams (K : SauceConstants) (self : SauceEndpoint)
    (host : HostUrl) (s : state) (r : StreamResponse) :
  answer K self host = inr r →
  declared_oversized K r = Ok false →
  fetch K self host s =
    match fetch_loop K (stream r) UploadFileIO_new 0
            (logged s [opened K host]) with
    | (Ok (file, _), s') => (Ok (seek file 0), s')
    | (Raise e, s') =>
        (Raise (if isinstance_HTTPError e
                then UnavailableSourceException (Some (str e)) else e), s')
    end.
Proof.
  intros Ha Hc. unfold fetch, try_except.
  rewrite (fetch_body_streams K self host s r Ha Hc).
  destruct (fetch_loop _ _ _ _ _) as [[[file size]|e] s']; [reflexivity|].
  by destruct (isinstance_HTTPError e).
Qed.

(** The header check passes when no length is declared and the cap is not
    negative. *)
Lemma undeclared_passes (K : SauceConstants) (r : StreamResponse) :
  headers r !! "content-length" = None →
  0 ≤ IMAGE_MAXIMUM_SIZE K →
  declared_oversized K r = Ok false.
Proof.
  intros Hh Hmax. unfold declared_oversized, get. rewrite Hh. cbn [py_gt].
  f_equal. rewrite Z.gtb_ltb. apply Z.ltb_ge. lia.
Qed.

(** [fetch] on a response without a declared length whose body is within
    the cap. *)
Lemma fetch_ok (K : SauceConstants) (self : SauceEndpoint) (host : HostUrl)
    (s : state) (r : StreamResponse) (cs : list (list Byte.byte)) :
  answer K self host = inr r →
  headers r !! "content-length" = None →
  stream r = Chunk <$> cs →
  total cs ≤ IMAGE_MAXIMUM_SIZE K →
  fetch K self host s =
    (Ok (mkFile (concat cs) 0),
     logged s (opened K host :: (NetRead <$> cs))).
Proof.
  intros Ha Hh Hs Hle. pose proof (total_nonneg cs).
  rewrite (fetch_streams K self host s r Ha); [|apply undeclared_passes; [done|lia]].
  rewrite Hs, fetch_loop_ok; [|reflexivity|lia].
  by rewrite logged_logged.
Qed.

Lemma py_gt_raises (a b : pyval) (e : exn) :
  py_gt a b = Raise e → e = TypeError.
Proof. destruct a, b; cbn [py_gt]; congruence. Qed.

Lemma fetch_open_failure (K : SauceConstants) (self : SauceEndpoint)
    (host : HostUrl) (s : state) (m : string) :
  answer K self host = inl m →
  fetch K self host s =
    (Raise (UnavailableSourceException (Some m)), logged s [opened K host]).
Proof.
  intros Ha. apply fetch_wraps. by apply fetch_body_open_failure.
Qed.

Lemma fetch_check_raises (K : SauceConstants) (self : SauceEndpoint)
    (host : HostUrl) (s : state) (r : StreamResponse) (e : exn) :
  answer K self host = inr r →
  declared_oversized K r = Raise e →
  e = TypeError ∧
  fetch K self host s = (Raise TypeError, logged s [opened K host]).
Proof.
  intros Ha Hc. pose proof (py_gt_raises _ _ _ Hc) as ->.
  split; [reflexivity|].
  apply fetch_passes; [|reflexivity]. by apply (fetch_body_check_raises K self host s r).
Qed.

Lemma fetch_declared (K : SauceConstants) (self : SauceEndpoint)
    (host : HostUrl) (s : state) (r : StreamResponse) :
  answer K self host = inr r →
  declared_oversized K r = Ok true →
  fetch K self host s =
    (Raise ImageSourceOversizedException, logged s [opened K host]).
Proof.
  intros Ha Hc. apply fetch_passes; [|reflexivity].
  by apply (fetch_body_declared K self host s r).
Qed.

(** ** fetch: what it returns, what it reads, how it fails *)

(** X1.  No declared length and a body of chunks within the cap (the cap
    itself included): [fetch] returns the chunks joined in order with the
    cursor at 0, having opened one GET and read every chunk once. *)
Theorem fetch_within_cap_returns_body (K : SauceConstants)
    (self : SauceEndpoint) (host : HostUrl) (s : state) (r : StreamResponse)
    (cs : list (list Byte.byte)) :
  answer K self host = inr r →
  headers r !! "content-length" = None →
  stream r = Chunk <$> cs →
  total cs ≤ IMAGE_MAXIMUM_SIZE K →
  (fetch K self host s).1 = Ok (mkFile (concat cs) 0) ∧
  net (fetch K self host s).2 = net s ++ opened K host :: (NetRead <$> cs) ∧
  bytes_read (NetRead <$> cs) = Z.of_nat (length (concat cs)).
Proof.
  intros Ha Hh Hs Hle. rewrite (fetch_ok K self host s r cs Ha Hh Hs Hle).
  cbn [fst snd logged net]. split; [reflexivity|]. split; [reflexivity|].
  rewrite bytes_read_NetRead. apply total_length_concat.
Qed.

Lemma fetch_within_cap_returns_body_witness :
  let self := Sample.endpoint
                (inr (Sample.undeclared [Chunk (Sample.chunk 1000);
                                         Chunk (Sample.chunk 24)]))
                Sample.no_post in
  let cs := [Sample.chunk 1000; Sample.chunk 24] in
  (fetch Sample.K self Sample.host Sample.s0).1 = Ok (mkFile (concat cs) 0) ∧
  net (fetch Sample.K self Sample.host Sample.s0).2 =
    net Sample.s0 ++ opened Sample.K Sample.host :: (NetRead <$> cs) ∧
  bytes_read (NetRead <$> cs) = Z.of_nat (length (concat cs)).
Proof.
  cbv zeta.
  apply (fetch_within_cap_returns_body Sample.K
           (Sample.endpoint
              (inr (Sample.undeclared [Chunk (Sample.chunk 1000);
                                       Chunk (Sample.chunk 24)]))
              Sample.no_post)
           Sample.host Sample.s0
           (Sample.undeclared [Chunk (Sample.chunk 1000);
                               Chunk (Sample.chunk 24)])
           [Sample.chunk 1000; Sample.chunk 24]).
  - reflexivity.
  - reflexivity.
  - reflexivity.
  - vm_compute. discriminate.
Defined.

(** X2.  A buffer that [fetch] returns is the whole body: the network
    answered, the body came in chunks to its end without a transport
    failure, every chunk was read, and the buffer holds them joined in
    order, cursor at 0. *)
Theorem fetch_returns_whole_body (K : SauceConstants) (self : SauceEndpoint)
    (host : HostUrl) (s s' : state) (f : UploadFileIO) :
  0 ≤ IMAGE_MAXIMUM_SIZE K →
  fetch K self host s = (Ok f, s') →
  ∃ r cs,
    answer K self host = inr r ∧
    stream r = Chunk <$> cs ∧
    f = mkFile (concat cs) 0 ∧
    s' = logged s (opened K host :: (NetRead <$> cs)).
Proof.
  intros Hmax Hf.
  destruct (answer K self host) as [m|r] eqn:Ha.
  { rewrite (fetch_open_failure K self host s m Ha) in Hf. discriminate. }
  destruct (declared_oversized K r) as [[|]|e] eqn:Hc.
  { rewrite (fetch_declared K self host s r Ha Hc) in Hf. discriminate. }
  2:{ destruct (fetch_check_raises K self host s r e Ha Hc) as [_ Hr].
      rewrite Hr in Hf. discriminate. }
  rewrite (fetch_streams K self host s r Ha Hc) in Hf.
  destruct (fetch_loop_spec K (stream r) UploadFileIO_new 0
              (logged s [opened K host])) as (cs & Hst & Hout);
    [reflexivity|assumption|].
  destruct (fetch_loop _ _ _ _ _) as [[[file size]|e] s1]; [|discriminate].
  cbn [fst snd loop_outcome] in Hst, Hout.
  destruct Hout as (Hitems & Hdata & _).
  injection Hf as <- <-. exists r, cs.
  split; [reflexivity|]. split; [assumption|]. split.
  - unfold seek. by rewrite Hdata.
  - by rewrite Hst, logged_logged.
Qed.

Lemma fetch_returns_whole_body_witness :
  ∃ r cs,
    answer Sample.K
      (Sample.endpoint (inr (Sample.undeclared [Chunk (Sample.chunk 400);
                                                Chunk (Sample.chunk 600)]))
                       Sample.no_post) Sample.host = inr r ∧
    stream r = Chunk <$> cs ∧
    mkFile (Sample.chunk 1000) 0 = mkFile (concat cs) 0 ∧
    logged Sample.s0 [opened Sample.K Sample.host; NetRead (Sample.chunk 400);
                      NetRead (Sample.chunk 600)]
      = logged Sample.s0 (opened Sample.K Sample.host :: (NetRead <$> cs)).
Proof.
  apply (fetch_returns_whole_body Sample.K
           (Sample.endpoint
              (inr (Sample.undeclared [Chunk (Sample.chunk 400);
                                       Chunk (Sample.chunk 600)]))
              Sample.no_post)
           Sample.host Sample.s0).
  - vm_compute. discriminate.
  - vm_compute. reflexivity.
Defined.

(** X3.  When [fetch] fails as oversized, either the header check fired
    and nothing of the body was read, or the loop fired at a chunk [last]:
    what was read before [last] is within the cap, and with [last] it is
    over the cap; nothing behind [last] was read. *)
Theorem fetch_oversized_bounds (K : SauceConstants) (self : SauceEndpoint)
    (host : HostUrl) (s s' : state) :
  0 ≤ IMAGE_MAXIMUM_SIZE K →
  fetch K self host s = (Raise ImageSourceOversizedException, s') →
  (∃ r, answer K self host = inr r ∧ declared_oversized K r = Ok true ∧
        s' = logged s [opened K host]) ∨
  (∃ init last,
      s' = logged s (opened K host :: (NetRead <$> (init ++ [last]))) ∧
      total init ≤ IMAGE_MAXIMUM_SIZE K ∧
      IMAGE_MAXIMUM_SIZE K < total (init ++ [last])).
Proof.
  intros Hmax Hf.
  destruct (answer K self host) as [m|r] eqn:Ha.
  { rewrite (fetch_open_failure K self host s m Ha) in Hf. discriminate. }
  destruct (declared_oversized K r) as [[|]|e] eqn:Hc.
  { rewrite (fetch_declared K self host s r Ha Hc) in Hf.
    injection Hf as <-. left. by exists r. }
  2:{ destruct (fetch_check_raises K self host s r e Ha Hc) as [_ Hr].
      rewrite Hr in Hf. discriminate. }
  rewrite (fetch_streams K self host s r Ha Hc) in Hf.
  destruct (fetch_loop_spec K (stream r) UploadFileIO_new 0
              (logged s [opened K host])) as (cs & Hst & Hout);
    [reflexivity|assumption|].
  destruct (fetch_loop _ _ _ _ _) as [[[file size]|e] s1]; [discriminate|].
  cbn [fst snd loop_outcome] in Hst, Hout.
  destruct e; try contradiction; cbn [isinstance_HTTPError] in Hf;
    [discriminate|].
  destruct Hout as (init & last & tail & -> & _ & Hi & Hc').
  injection Hf as <-. right. exists init, last.
  split; [by rewrite Hst, logged_logged|]. split; lia.
Qed.

Lemma fetch_oversized_bounds_witness :
  let self := Sample.endpoint
                (inr (Sample.undeclared [Chunk (Sample.chunk 600);
                                         Chunk (Sample.chunk 600);
                                         Chunk (Sample.chunk 600)]))
                Sample.no_post in
  let s' := logged Sample.s0 [opened Sample.K Sample.host;
                              NetRead (Sample.chunk 600);
                              NetRead (Sample.chunk 600)] in
  (∃ r, answer Sample.K self Sample.host = inr r ∧
        declared_oversized Sample.K r = Ok true ∧
        s' = logged Sample.s0 [opened Sample.K Sample.host]) ∨
  (∃ init last,
      s' = logged Sample.s0
             (opened Sample.K Sample.host :: (NetRead <$> (init ++ [last]))) ∧
      total init ≤ IMAGE_MAXIMUM_SIZE Sample.K ∧
      IMAGE_MAXIMUM_SIZE Sample.K < total (init ++ [last])).
Proof.
  cbv zeta.
  apply (fetch_oversized_bounds Sample.K
           (Sample.endpoint
              (inr (Sample.undeclared [Chunk (Sample.chunk 600);
                                       Chunk (Sample.chunk 600);
                                       Chunk (Sample.chunk 600)]))
              Sample.no_post)
           Sample.host Sample.s0).
  - vm_compute. discriminate.
  - vm_compute. reflexivity.
Defined.

Lemma within_cap_split (K : SauceConstants) (cs : list (list Byte.byte)) :
  total cs ≤ IMAGE_MAXIMUM_SIZE K →
  cs = [] ∨
  ∃ init last, cs = init ++ [last] ∧ total init ≤ IMAGE_MAXIMUM_SIZE K.
Proof.
  intros Hle. destruct cs as [|last init _] using rev_ind; [by left|].
  right. exists init, last. split; [reflexivity|].
  rewrite total_app, total_cons, total_nil in Hle. lia.
Qed.

Lemma bytes_read_last (init : list (list Byte.byte)) (last : list Byte.byte) :
  bytes_read (NetRead <$> (init ++ [last])) =
  total init + Z.of_nat (length last).
Proof.
  rewrite bytes_read_NetRead. fold (total (init ++ [last])).
  rewrite total_app, total_cons, total_nil. lia.
Qed.

(** X4.  Whatever the network answers and however [fetch] ends: it leaves
    the dictionaries alone, opens exactly one GET and sends no POST, and
    if it read chunks, those before the last one read are within the
    cap. *)
Theorem fetch_footprint (K : SauceConstants) (self : SauceEndpoint)
    (host : HostUrl) (s : state) :
  0 ≤ IMAGE_MAXIMUM_SIZE K →
  ∃ cs,
    (fetch K self host s).2 = logged s (opened K host :: (NetRead <$> cs)) ∧
    (cs = [] ∨
     ∃ init last, cs = init ++ [last] ∧ total init ≤ IMAGE_MAXIMUM_SIZE K ∧
       bytes_read (NetRead <$> cs) ≤
         IMAGE_MAXIMUM_SIZE K + Z.of_nat (length last)).
Proof.
  intros Hmax.
  destruct (answer K self host) as [m|r] eqn:Ha.
  { rewrite (fetch_open_failure K self host s m Ha). exists []. auto. }
  destruct (declared_oversized K r) as [[|]|e] eqn:Hc.
  { rewrite (fetch_declared K self host s r Ha Hc). exists []. auto. }
  2:{ destruct (fetch_check_raises K self host s r e Ha Hc) as [_ ->].
      exists []. auto. }
  rewrite (fetch_streams K self host s r Ha Hc).
  destruct (fetch_loop_spec K (stream r) UploadFileIO_new 0
              (logged s [opened K host])) as (cs & Hst & Hout);
    [reflexivity|assumption|].
  exists cs. split.
  { destruct (fetch_loop _ _ _ _ _) as [[[file size]|e] s1];
      cbn [fst snd] in Hst |- *; by rewrite Hst, logged_logged. }
  assert (total cs ≤ IMAGE_MAXIMUM_SIZE K →
          cs = [] ∨ ∃ init last, cs = init ++ [last] ∧
            total init ≤ IMAGE_MAXIMUM_SIZE K ∧
            bytes_read (NetRead <$> cs) ≤
              IMAGE_MAXIMUM_SIZE K + Z.of_nat (length last)) as Hwithin.
  { intros Hle. destruct (within_cap_split K cs Hle)
      as [->|(init & last & -> & Hi)]; [by left|].
    right. exists init, last. rewrite bytes_read_last.
    split; [reflexivity|]. split; lia. }
  destruct (fetch_loop _ _ _ _ _) as [[[file size]|e] s1];
    cbn [fst loop_outcome] in Hout.
  - destruct Hout as (_ & _ & _ & -> & Hle). apply Hwithin. lia.
  - destruct e; try contradiction.
    + destruct Hout as (tail & _ & Hle). apply Hwithin. lia.
    + destruct Hout as (init & last & tail & -> & _ & Hi & _).
      right. exists init, last. rewrite bytes_read_last.
      split; [reflexivity|]. split; lia.
Qed.

Lemma fetch_footprint_witness :
  ∃ cs,
    (fetch Sample.K
       (Sample.endpoint
          (inr (Sample.undeclared [Chunk (Sample.chunk 600);
                                   StreamFailure "reset by peer"]))
          Sample.no_post) Sample.host Sample.s0).2
      = logged Sample.s0 (opened Sample.K Sample.host :: (NetRead <$> cs)) ∧
    (cs = [] ∨
     ∃ init last, cs = init ++ [last] ∧
       total init ≤ IMAGE_MAXIMUM_SIZE Sample.K ∧
       bytes_read (NetRead <$> cs) ≤
         IMAGE_MAXIMUM_SIZE Sample.K + Z.of_nat (length last)).
Proof.
  apply (fetch_footprint Sample.K
           (Sample.endpoint
              (inr (Sample.undeclared [Chunk (Sample.chunk 600);
                                       StreamFailure "reset by peer"]))
              Sample.no_post) Sample.host Sample.s0).
  vm_compute. discriminate.
Defined.

(** The handler of [fetch] around any block: no [HTTPError] comes out. *)
Lemma handler_catches_HTTPError {A : Type} (body : M A) (s s' : state)
    (e : exn) :
  try_except body
    (λ e, if isinstance_HTTPError e
          then Some (raise (UnavailableSourceException (Some (str e))))
          else None) s = (Raise e, s') →
  isinstance_HTTPError e = false.
Proof.
  unfold try_except.
  destruct (body s) as [[a|e0] s0]; [discriminate|].
  destruct (isinstance_HTTPError e0) eqn:He0.
  - intros [= <- _]. reflexivity.
  - intros [= <- _]. exact He0.
Qed.

(** X5.  No httpx [HTTPError] leaves [fetch], whatever its [try] block
    raises.  And when [fetch] fails with [UnavailableSourceException]
    itself, a transport error happened and its text is the detail: the GET
    failed when it was opened, or the body failed after chunks that were
    all read and are within the cap. *)
Theorem fetch_unavailable_is_transport_error (K : SauceConstants)
    (self : SauceEndpoint) (host : HostUrl) (s s' : state) (e : exn) :
  0 ≤ IMAGE_MAXIMUM_SIZE K →
  fetch K self host s = (Raise e, s') →
  isinstance_HTTPError e = false ∧
  ∀ d, e = UnavailableSourceException d →
    ∃ m, d = Some m ∧
      ((answer K self host = inl m ∧ s' = logged s [opened K host]) ∨
       ∃ r cs tail,
         answer K self host = inr r ∧
         stream r = (Chunk <$> cs) ++ StreamFailure m :: tail ∧
         total cs ≤ IMAGE_MAXIMUM_SIZE K ∧
         s' = logged s (opened K host :: (NetRead <$> cs))).
Proof.
  intros Hmax Hf. split.
  { exact (handler_catches_HTTPError (fetch_body K self host) s s' e Hf). }
  intros d ->.
  destruct (answer K self host) as [m|r] eqn:Ha.
  { rewrite (fetch_open_failure K self host s m Ha) in Hf.
    injection Hf as <- <-. exists m. split; [reflexivity|]. by left. }
  destruct (declared_oversized K r) as [[|]|e0] eqn:Hc.
  { rewrite (fetch_declared K self host s r Ha Hc) in Hf. discriminate. }
  2:{ destruct (fetch_check_raises K self host s r e0 Ha Hc) as [_ Hr].
      rewrite Hr in Hf. discriminate. }
  rewrite (fetch_streams K self host s r Ha Hc) in Hf.
  destruct (fetch_loop_spec K (stream r) UploadFileIO_new 0
              (logged s [opened K host])) as (cs & Hst & Hout);
    [reflexivity|assumption|].
  destruct (fetch_loop _ _ _ _ _) as [[[file size]|e1] s1]; [discriminate|].
  cbn [fst snd loop_outcome] in Hst, Hout.
  destruct e1; try contradiction; cbn [isinstance_HTTPError str] in Hf;
    [|discriminate].
  destruct Hout as (tail & Hitems & Hle).
  injection Hf as <- <-. exists message. split; [reflexivity|].
  right. exists r, cs, tail.
  split; [reflexivity|]. split; [exact Hitems|]. split; [lia|].
  by rewrite Hst, logged_logged.
Qed.

Lemma fetch_unavailable_is_transport_error_witness :
  let self := Sample.endpoint
                (inr (Sample.undeclared [Chunk (Sample.chunk 600);
                                         StreamFailure "timed out";
                                         Chunk (Sample.chunk 600)]))
                Sample.no_post in
  let s' := logged Sample.s0 [opened Sample.K Sample.host;
                              NetRead (Sample.chunk 600)] in
  isinstance_HTTPError (UnavailableSourceException (Some "timed out")) = false ∧
  ∀ d, UnavailableSourceException (Some "timed out")
         = UnavailableSourceException d →
    ∃ m, d = Some m ∧
      ((answer Sample.K self Sample.host = inl m ∧
        s' = logged Sample.s0 [opened Sample.K Sample.host]) ∨
       ∃ r cs tail,
         answer Sample.K self Sample.host = inr r ∧
         stream r = (Chunk <$> cs) ++ StreamFailure m :: tail ∧
         total cs ≤ IMAGE_MAXIMUM_SIZE Sample.K ∧
         s' = logged Sample.s0
                (opened Sample.K Sample.host :: (NetRead <$> cs))).
Proof.
  cbv zeta.
  apply (fetch_unavailable_is_transport_error Sample.K
           (Sample.endpoint
              (inr (Sample.undeclared [Chunk (Sample.chunk 600);
                                       StreamFailure "timed out";
                                       Chunk (Sample.chunk 600)]))
              Sample.no_post) Sample.host Sample.s0).
  - vm_compute. discriminate.
  - vm_compute. reflexivity.
Defined.

(** X6.  A response that declares a content-length that is not an [int]
    (httpx hands out a [str], always) makes [fetch] fail with [TypeError]
    once the GET is opened, whatever the declared value and the body, also
    when the image is within the cap; no byte of the body is read. *)
Theorem fetch_nonint_length_TypeError (K : SauceConstants)
    (self : SauceEndpoint) (host : HostUrl) (s : state) (r : StreamResponse)
    (v : pyval) :
  answer K self host = inr r →
  headers r !! "content-length" = Some v →
  (∀ n, v ≠ PInt n) →
  fetch K self host s = (Raise TypeError, logged s [opened K host]) ∧
  bytes_read (net (fetch K self host s).2) = bytes_read (net s).
Proof.
  intros Ha Hh Hv.
  assert (declared_oversized K r = Raise TypeError) as Hc.
  { unfold declared_oversized, get. rewrite Hh.
    destruct v as [|n|w]; [reflexivity| |reflexivity]. by destruct (Hv n). }
  destruct (fetch_check_raises K self host s r _ Ha Hc) as [_ ->].
  split; [reflexivity|]. cbn [snd logged net].
  rewrite bytes_read_app. cbn [bytes_read opened]. lia.
Qed.

Lemma fetch_nonint_length_TypeError_witness :
  let self := Sample.endpoint
                (inr (Sample.declaring (PStr "100") [Chunk (Sample.chunk 100)]))
                Sample.no_post in
  fetch Sample.K self Sample.host Sample.s0 =
    (Raise TypeError, logged Sample.s0 [opened Sample.K Sample.host]) ∧
  bytes_read (net (fetch Sample.K self Sample.host Sample.s0).2) =
    bytes_read (net Sample.s0).
Proof.
  cbv zeta.
  apply (fetch_nonint_length_TypeError Sample.K
           (Sample.endpoint
              (inr (Sample.declaring (PStr "100") [Chunk (Sample.chunk 100)]))
              Sample.no_post)
           Sample.host Sample.s0
           (Sample.declaring (PStr "100") [Chunk (Sample.chunk 100)])
           (PStr "100")).
  - reflexivity.
  - reflexivity.
  - intros n. discriminate.
Defined.

(** ** request: the bundle it posts and how it fails *)

Lemma merged_merged (K : SauceConstants) (d : dict) :
  merged K (merged K d) = merged K d.
Proof. unfold merged. by rewrite (assoc_L (∪)), (idemp_L (∪)). Qed.

(** X7.  The bundle [request] posts, for any dictionary [d] it is given:
    one POST and nothing else on the network, to the URL built from a
    bundle in which [api_key] and [output_type] are the fixed values, also
    where [d] had other values for them, and every other entry is as in
    [d]; the buffer goes out as given. *)
Theorem request_posts_merged_bundle {JSON : Type} (K : SauceConstants)
    (httpx : Httpx JSON) (self : SauceEndpoint) (file : UploadFileIO)
    (p : loc) (s : state) (d : dict) :
  heap s !! p = Some d →
  ∃ bundle : dict,
    net (request K httpx self file p s).2 =
      net s ++ [NetPost (_join self base "search.php" bundle) file] ∧
    bundle !! "api_key" = Some (API_KEY K) ∧
    bundle !! "output_type" = Some (PInt 2) ∧
    (∀ k, k ≠ "api_key" → k ≠ "output_type" → bundle !! k = d !! k).
Proof.
  intros Hd. exists (merged K d). rewrite request_state.
  rewrite (lookup_total_correct _ _ _ Hd).
  split; [reflexivity|]. split; [apply merged_api_key|].
  split; [apply merged_output_type|apply merged_other].
Qed.

Lemma request_posts_merged_bundle_witness :
  let d : dict := {[ "api_key" := PStr "mine"; "numres" := PInt 5 ]} in
  ∃ bundle : dict,
    net (request Sample.K Sample.httpx
           (Sample.endpoint Sample.no_get (inr (mkResponse 200 "{}")))
           (mkFile (Sample.chunk 8) 3) 0%nat (with_params d Sample.s0)).2 =
      net (with_params d Sample.s0) ++
      [NetPost (_join (Sample.endpoint Sample.no_get (inr (mkResponse 200 "{}")))
                  base "search.php" bundle)
               (mkFile (Sample.chunk 8) 3)] ∧
    bundle !! "api_key" = Some (API_KEY Sample.K) ∧
    bundle !! "output_type" = Some (PInt 2) ∧
    (∀ k, k ≠ "api_key" → k ≠ "output_type" → bundle !! k = d !! k).
Proof.
  cbv zeta.
  apply (request_posts_merged_bundle Sample.K Sample.httpx
           (Sample.endpoint Sample.no_get (inr (mkResponse 200 "{}")))
           (mkFile (Sample.chunk 8) 3) 0%nat
           (with_params {[ "api_key" := PStr "mine"; "numres" := PInt 5 ]}
              Sample.s0)).
  reflexivity.
Defined.

(** X8.  A success status with a body that does not parse as JSON:
    [request] fails with the decoder's error, not with
    [UpstreamAPIException]; [response.json()] runs outside the [try]. *)
Theorem request_unparsable_body {JSON : Type} (K : SauceConstants)
    (httpx : Httpx JSON) (self : SauceEndpoint) (file : UploadFileIO)
    (p : loc) (s : state) (response : Response) :
  client_post self (target K self (heap s !!! p)) file = inr response →
  is_error httpx (status_code response) = false →
  json httpx (text response) = None →
  (request K httpx self file p s).1 = Raise JSONDecodeError.
Proof.
  intros Hp He Hj. rewrite request_run. cbv zeta. by rewrite Hp, He, Hj.
Qed.

Lemma request_unparsable_body_witness :
  (request Sample.K Sample.httpx
     (Sample.endpoint Sample.no_get (inr (mkResponse 200 "")))
     (mkFile (Sample.chunk 8) 0) 0%nat (with_params ∅ Sample.s0)).1
  = Raise JSONDecodeError.
Proof.
  apply (request_unparsable_body Sample.K Sample.httpx
           (Sample.endpoint Sample.no_get (inr (mkResponse 200 "")))
           (mkFile (Sample.chunk 8) 0) 0%nat (with_params ∅ Sample.s0)
           (mkResponse 200 "")).
  - reflexivity.
  - reflexivity.
  - reflexivity.
Defined.

(** X9.  The outcomes of [request], all of them: the parsed body of an
    answer with a success status; [UpstreamAPIException] without detail
    when the POST failed in transport, with the answer's text when its
    status is an error; the decoder's error when a success answer does
    not parse.  No httpx error leaves [request]. *)
Theorem request_outcomes {JSON : Type} (K : SauceConstants)
    (httpx : Httpx JSON) (self : SauceEndpoint) (file : UploadFileIO)
    (p : loc) (s : state) :
  let sent := client_post self (target K self (heap s !!! p)) file in
  match (request K httpx self file p s).1 with
  | Ok j =>
      ∃ r, sent = inr r ∧ is_error httpx (status_code r) = false ∧
           json httpx (text r) = Some j
  | Raise (UpstreamAPIException None) => ∃ m, sent = inl m
  | Raise (UpstreamAPIException (Some t)) =>
      ∃ r, sent = inr r ∧ is_error httpx (status_code r) = true ∧ t = text r
  | Raise JSONDecodeError =>
      ∃ r, sent = inr r ∧ is_error httpx (status_code r) = false ∧
           json httpx (text r) = None
  | Raise _ => False
  end.
Proof.
  cbv zeta. rewrite request_run. cbv zeta.
  destruct (client_post self _ file) as [m|r]; cbn [fst]; [by exists m|].
  destruct (is_error httpx (status_code r)) eqn:He; cbn [fst];
    [by exists r|].
  destruct (json httpx (text r)) as [j|] eqn:Hj; cbn [fst]; by exists r.
Qed.

(** X10.  [request] twice on the same dictionary: the second call posts
    to the URL of the first and leaves the store as the first left it. *)
Theorem request_twice {JSON : Type} (K : SauceConstants)
    (httpx : Httpx JSON) (self : SauceEndpoint) (f1 f2 : UploadFileIO)
    (p : loc) (s : state) (d : dict) :
  heap s !! p = Some d →
  let s1 := (request K httpx self f1 p s).2 in
  let s2 := (request K httpx self f2 p s1).2 in
  heap s2 = heap s1 ∧
  net s1 = net s ++ [NetPost (target K self d) f1] ∧
  net s2 = net s1 ++ [NetPost (target K self d) f2].
Proof.
  intros Hd. cbv zeta. rewrite !request_state.
  rewrite (lookup_total_correct _ _ _ Hd).
  unfold logged, updated. cbn [heap net].
  rewrite lookup_total_insert_eq, (lookup_total_correct _ _ _ Hd).
  unfold target. rewrite !merged_merged, insert_insert_eq. auto.
Qed.

Lemma request_twice_witness :
  let d : dict := {[ "numres" := PInt 5 ]} in
  let self := Sample.endpoint Sample.no_get (inr (mkResponse 200 "{}")) in
  let f := mkFile (Sample.chunk 8) 0 in
  let s1 := (request Sample.K Sample.httpx self f 0%nat
               (with_params d Sample.s0)).2 in
  let s2 := (request Sample.K Sample.httpx self f 0%nat s1).2 in
  heap s2 = heap s1 ∧
  net s1 = net (with_params d Sample.s0) ++
           [NetPost (target Sample.K self d) f] ∧
  net s2 = net s1 ++ [NetPost (target Sample.K self d) f].
Proof.
  cbv zeta.
  apply (request_twice Sample.K Sample.httpx
           (Sample.endpoint Sample.no_get (inr (mkResponse 200 "{}")))
           (mkFile (Sample.chunk 8) 0) (mkFile (Sample.chunk 8) 0) 0%nat
           (with_params {[ "numres" := PInt 5 ]} Sample.s0)
           {[ "numres" := PInt 5 ]}).
  reflexivity.
Defined.

(** ** search: how fetch and request compose *)

(** Whatever the outcome, [fetch] adds to the log the GET it opened and
    the chunks it read, and leaves the dictionaries alone. *)
Lemma fetch_log (K : SauceConstants) (self : SauceEndpoint) (host : HostUrl)
    (s : state) :
  ∃ cs, (fetch K self host s).2 = logged s (opened K host :: (NetRead <$> cs)).
Proof.
  destruct (answer K self host) as [m|r] eqn:Ha.
  { exists []. by rewrite (fetch_open_failure K self host s m Ha). }
  destruct (declared_oversized K r) as [[|]|e] eqn:Hc.
  { exists []. by rewrite (fetch_declared K self host s r Ha Hc). }
  2:{ exists []. by destruct (fetch_check_raises K self host s r e Ha Hc)
        as [_ ->]. }
  rewrite (fetch_streams K self host s r Ha Hc).
  destruct (fetch_loop_shape K (stream r) UploadFileIO_new 0
              (logged s [opened K host])) as (cs & Hst & _).
  exists cs.
  destruct (fetch_loop _ _ _ _ _) as [[[file size]|e] s1];
    cbn [fst snd] in Hst |- *; by rewrite Hst, logged_logged.
Qed.

Lemma search_url_run {JSON : Type} (K : SauceConstants)
    (httpx : Httpx JSON) (self : SauceEndpoint) (u : HostUrl)
    (file : option UploadFileIO) (size : Z) (deduplicate : DeduplicateType)
    (database enabled_mask disabled_mask : option Z) (s : state) :
  search K httpx self (Some u) file size deduplicate database enabled_mask
    disabled_mask s =
  match fetch K self u s with
  | (Ok f, s1) =>
      request K httpx self f (fresh (dom (heap s1)))
        (with_params
           (search_params size deduplicate database enabled_mask
              disabled_mask) s1)
  | (Raise e, s1) => (Raise e, s1)
  end.
Proof.
  unfold search. run. by destruct (fetch K self u s) as [[f|e] s1].
Qed.

(** X11.  When the fetch of a search by URL fails, the search fails with
    the same exception and has done on the network what the fetch did:
    the GET and its reads.  No POST is sent and no dictionary is made or
    changed. *)
Theorem search_fetch_failure {JSON : Type} (K : SauceConstants)
    (httpx : Httpx JSON) (self : SauceEndpoint) (u : HostUrl)
    (file : option UploadFileIO) (size : Z) (deduplicate : DeduplicateType)
    (database enabled_mask disabled_mask : option Z) (s s1 : state)
    (e : exn) :
  fetch K self u s = (Raise e, s1) →
  search K httpx self (Some u) file size deduplicate database enabled_mask
    disabled_mask s = (Raise e, s1) ∧
  ∃ cs, s1 = logged s (opened K u :: (NetRead <$> cs)).
Proof.
  intros Hf. rewrite search_url_run, Hf. split; [reflexivity|].
  destruct (fetch_log K self u s) as (cs & Hcs). exists cs.
  by rewrite Hf in Hcs.
Qed.

Lemma search_fetch_failure_witness :
  let self := Sample.endpoint
                (inr (Sample.undeclared [Chunk (Sample.chunk 2000)]))
                (inr (mkResponse 200 "{}")) in
  let s1 := logged Sample.s0 [opened Sample.K Sample.host;
                              NetRead (Sample.chunk 2000)] in
  search Sample.K Sample.httpx self (Some Sample.host) None 30 ALL None None
    None Sample.s0 = (Raise ImageSourceOversizedException, s1) ∧
  ∃ cs, s1 = logged Sample.s0 (opened Sample.K Sample.host :: (NetRead <$> cs)).
Proof.
  cbv zeta.
  apply (search_fetch_failure Sample.K Sample.httpx
           (Sample.endpoint
              (inr (Sample.undeclared [Chunk (Sample.chunk 2000)]))
              (inr (mkResponse 200 "{}")))
           Sample.host None 30 ALL None None None Sample.s0).
  vm_compute. reflexivity.
Defined.

(** X12.  With both a URL and a file, the URL wins: the search is the
    search by that URL alone, the supplied file is never used. *)
Theorem search_url_wins {JSON : Type} (K : SauceConstants)
    (httpx : Httpx JSON) (self : SauceEndpoint) (u : HostUrl)
    (f0 : UploadFileIO) (size : Z) (deduplicate : DeduplicateType)
    (database enabled_mask disabled_mask : option Z) (s : state) :
  search K httpx self (Some u) (Some f0) size deduplicate database
    enabled_mask disabled_mask s =
  search K httpx self (Some u) None size deduplicate database enabled_mask
    disabled_mask s.
Proof. by rewrite !search_url_run. Qed.

(** [fetch] and [request] raise no [AssertionError]. *)
Lemma fetch_no_assertion (K : SauceConstants) (self : SauceEndpoint)
    (host : HostUrl) (s : state) :
  (fetch K self host s).1 ≠ Raise AssertionError.
Proof.
  destruct (answer K self host) as [m|r] eqn:Ha.
  { by rewrite (fetch_open_failure K self host s m Ha). }
  destruct (declared_oversized K r) as [[|]|e] eqn:Hc.
  { by rewrite (fetch_declared K self host s r Ha Hc). }
  2:{ by destruct (fetch_check_raises K self host s r e Ha Hc) as [_ ->]. }
  rewrite (fetch_streams K self host s r Ha Hc).
  destruct (fetch_loop_shape K (stream r) UploadFileIO_new 0
              (logged s [opened K host])) as (cs & _ & Hr).
  destruct (fetch_loop _ _ _ _ _) as [[[file size]|e] s1]; [done|].
  by destruct (Hr e eq_refl) as [->|[m ->]].
Qed.

Lemma request_no_assertion {JSON : Type} (K : SauceConstants)
    (httpx : Httpx JSON) (self : SauceEndpoint) (file : UploadFileIO)
    (p : loc) (s : state) :
  (request K httpx self file p s).1 ≠ Raise AssertionError.
Proof.
  rewrite request_run. cbv zeta.
  destruct (client_post self _ file) as [m|r]; [done|].
  destruct (is_error httpx (status_code r)); [done|].
  by destruct (json httpx (text r)).
Qed.

(** X13.  A [search] fails on its assertion exactly when it is given
    neither a URL nor a file, and then before it does anything: the state
    is the one it started in. *)
Theorem search_without_source {JSON : Type} (K : SauceConstants)
    (httpx : Httpx JSON) (self : SauceEndpoint) (url : option HostUrl)
    (file : option UploadFileIO) (size : Z) (deduplicate : DeduplicateType)
    (database enabled_mask disabled_mask : option Z) (s : state) :
  ((search K httpx self url file size deduplicate database enabled_mask
      disabled_mask s).1 = Raise AssertionError
   ↔ url = None ∧ file = None) ∧
  (url = None ∧ file = None →
   search K httpx self url file size deduplicate database enabled_mask
     disabled_mask s = (Raise AssertionError, s)).
Proof.
  split; [|by intros [-> ->]].
  split; [|by intros [-> ->]].
  destruct url as [u|].
  - rewrite search_url_run.
    pose proof (fetch_no_assertion K self u s) as Hf.
    destruct (fetch K self u s) as [[f|e] s1]; cbn [fst] in Hf |- *.
    + intros H. by destruct (request_no_assertion K httpx self f _ _ H).
    + intros [= ->]. by destruct Hf.
  - destruct file as [f|]; [|intros _; split; reflexivity].
    rewrite search_by_file. intros H.
    by destruct (request_no_assertion K httpx self f _ _ H).
Qed.

Lemma search_without_source_witness :
  search Sample.K Sample.httpx
    (Sample.endpoint Sample.no_get (inr (mkResponse 200 "{}")))
    None None 30 ALL None None None Sample.s0
  = (Raise AssertionError, Sample.s0).
Proof.
  apply (proj2 (search_without_source Sample.K Sample.httpx
                  (Sample.endpoint Sample.no_get (inr (mkResponse 200 "{}")))
                  None None 30 ALL None None None Sample.s0)).
  split; reflexivity.
Defined.

(** The bundle of a [search], after [request] merged its two fixed values
    in. *)
Lemma merged_search_params (K : SauceConstants) (size : Z)
    (deduplicate : DeduplicateType)
    (database enabled_mask disabled_mask : option Z) :
  merged K (search_params size deduplicate database enabled_mask
              disabled_mask) =
  {[ "numres" := PInt size;
     "dedupe" := PInt (DeduplicateType_value deduplicate);
     "db" := of_optional_int database;
     "dbmask" := of_optional_int enabled_mask;
     "dbmaski" := of_optional_int disabled_mask;
     "api_key" := API_KEY K; "output_type" := PInt 2 ]}.
Proof. reflexivity. Qed.

(** X14.  The arguments of a [search] reach the upstream as they are: with
    its buffer [f] supplied or fetched, the one POST goes to the URL built
    from the bundle that holds [size] under numres, the int of the mode
    (0, 1, 2) under dedupe, and [database], [enabled_mask] and
    [disabled_mask] under db, dbmask and dbmaski, each as its int or as
    [None] when absent, with the two fixed values and no other key. *)
Theorem search_forwards_arguments {JSON : Type} (K : SauceConstants)
    (httpx : Httpx JSON) (self : SauceEndpoint) (url : option HostUrl)
    (file : option UploadFileIO) (size : Z) (deduplicate : DeduplicateType)
    (database enabled_mask disabled_mask : option Z) (s s1 : state)
    (f : UploadFileIO) :
  (url = None ∧ file = Some f ∧ s1 = s) ∨
  (∃ u, url = Some u ∧ fetch K self u s = (Ok f, s1)) →
  let bundle : dict :=
    {[ "numres" := PInt size;
       "dedupe" := PInt match deduplicate with
                        | DISABLED => 0
                        | IDENTIFIER => 1
                        | ALL => 2
                        end;
       "db" := match database with Some n => PInt n | None => PNone end;
       "dbmask" := match enabled_mask with Some n => PInt n | None => PNone end;
       "dbmaski" := match disabled_mask with Some n => PInt n | None => PNone end;
       "api_key" := API_KEY K; "output_type" := PInt 2 ]} in
  net (search K httpx self url file size deduplicate database enabled_mask
         disabled_mask s).2 =
    net s1 ++ [NetPost (_join self base "search.php" bundle) f].
Proof.
  intros Hbuf bundle.
  assert (search K httpx self url file size deduplicate database enabled_mask
            disabled_mask s =
          request K httpx self f (fresh (dom (heap s1)))
            (with_params (search_params size deduplicate database enabled_mask
                            disabled_mask) s1)) as ->.
  { destruct Hbuf as [(-> & -> & ->)|(u & -> & Hf)].
    - apply search_by_file.
    - by apply search_by_url. }
  rewrite request_state, with_params_lookup. unfold target.
  rewrite merged_search_params. unfold bundle.
  by destruct deduplicate, database, enabled_mask, disabled_mask.
Qed.

Lemma search_forwards_arguments_witness :
  let self := Sample.endpoint Sample.no_get (inr (mkResponse 200 "{}")) in
  let f := mkFile (Sample.chunk 8) 0 in
  let bundle : dict :=
    {[ "numres" := PInt 5; "dedupe" := PInt 1; "db" := PInt 21;
       "dbmask" := PNone; "dbmaski" := PInt 8;
       "api_key" := PStr "secret"; "output_type" := PInt 2 ]} in
  net (search Sample.K Sample.httpx self None (Some f) 5 IDENTIFIER (Some 21)
         None (Some 8) Sample.s0).2 =
    net Sample.s0 ++ [NetPost (_join self base "search.php" bundle) f].
Proof.
  cbv zeta.
  apply (search_forwards_arguments Sample.K Sample.httpx
           (Sample.endpoint Sample.no_get (inr (mkResponse 200 "{}")))
           None (Some (mkFile (Sample.chunk 8) 0)) 5 IDENTIFIER (Some 21)
           None (Some 8) Sample.s0 Sample.s0 (mkFile (Sample.chunk 8) 0)).
  left. repeat split; reflexivity.
Defined.

Lemma request_keeps_others {JSON : Type} (K : SauceConstants)
    (httpx : Httpx JSON) (self : SauceEndpoint) (f : UploadFileIO)
    (d0 : dict) (s : state) (q : loc) (d : dict) :
  heap s !! q = Some d →
  heap (request K httpx self f (fresh (dom (heap s))) (with_params d0 s)).2
    !! q = Some d.
Proof.
  intros Hq. rewrite request_state. unfold logged, updated, with_params.
  cbn [heap].
  assert (fresh (dom (heap s)) ≠ q) as Hne.
  { intros <-. apply (is_fresh (dom (heap s))). apply elem_of_dom. eauto. }
  by rewrite !lookup_insert_ne.
Qed.

(** X15.  A [search] never touches a dictionary that was there before the
    call, however it ends: the [params] it hands to [request], which
    [request] updates in place, is an object of its own. *)
Theorem search_keeps_dictionaries {JSON : Type} (K : SauceConstants)
    (httpx : Httpx JSON) (self : SauceEndpoint) (url : option HostUrl)
    (file : option UploadFileIO) (size : Z) (deduplicate : DeduplicateType)
    (database enabled_mask disabled_mask : option Z) (s : state) (q : loc)
    (d : dict) :
  heap s !! q = Some d →
  heap (search K httpx self url file size deduplicate database enabled_mask
          disabled_mask s).2 !! q = Some d.
Proof.
  intros Hq. destruct url as [u|].
  - rewrite search_url_run.
    pose proof (fetch_log K self u s) as (cs & Hcs).
    destruct (fetch K self u s) as [[f|e] s1]; cbn [snd] in Hcs |- *.
    + apply request_keeps_others. by rewrite Hcs.
    + by rewrite Hcs.
  - destruct file as [f|]; [|exact Hq].
    rewrite search_by_file. by apply request_keeps_others.
Qed.

Lemma search_keeps_dictionaries_witness :
  let d : dict := {[ "numres" := PInt 5 ]} in
  heap (search Sample.K Sample.httpx
          (Sample.endpoint Sample.no_get (inr (mkResponse 200 "{}")))
          None (Some (mkFile (Sample.chunk 8) 0)) 30 ALL None None None
          (with_params d Sample.s0)).2 !! 0%nat = Some d.
Proof.
  cbv zeta.
  apply (search_keeps_dictionaries Sample.K Sample.httpx
           (Sample.endpoint Sample.no_get (inr (mkResponse 200 "{}")))
           None (Some (mkFile (Sample.chunk 8) 0)) 30 ALL None None None
           (with_params {[ "numres" := PInt 5 ]} Sample.s0) 0%nat).
  reflexivity.
Defined.

(** X16.  A search by URL, the response without a declared length and its
    body of chunks within the cap: on the network it is the GET, one read
    per chunk, then the POST, and the POST carries the chunks joined in
    order in a buffer whose cursor is at 0. *)
Theorem search_by_url_posts_body {JSON : Type} (K : SauceConstants)
    (httpx : Httpx JSON) (self : SauceEndpoint) (host : HostUrl)
    (file : option UploadFileIO) (size : Z) (deduplicate : DeduplicateType)
    (database enabled_mask disabled_mask : option Z) (s : state)
    (r : StreamResponse) (cs : list (list Byte.byte)) :
  answer K self host = inr r →
  headers r !! "content-length" = None →
  stream r = Chunk <$> cs →
  total cs ≤ IMAGE_MAXIMUM_SIZE K →
  net (search K httpx self (Some host) file size deduplicate database
         enabled_mask disabled_mask s).2 =
    net s ++ opened K host :: (NetRead <$> cs) ++
    [NetPost (target K self (search_params size deduplicate database
                               enabled_mask disabled_mask))
             (mkFile (concat cs) 0)].
Proof.
  intros Ha Hh Hs Hle.
  rewrite (search_by_url K httpx self host file (mkFile (concat cs) 0) size
             deduplicate database enabled_mask disabled_mask s
             (logged s (opened K host :: (NetRead <$> cs))));
    [|by apply (fetch_ok K self host s r cs)].
  rewrite request_state, with_params_lookup.
  unfold logged, updated, with_params. cbn [heap net].
  by rewrite <- app_assoc.
Qed.

Lemma search_by_url_posts_body_witness :
  let self := Sample.endpoint
                (inr (Sample.undeclared [Chunk (Sample.chunk 400);
                                         Chunk (Sample.chunk 600)]))
                (inr (mkResponse 200 "{}")) in
  let cs := [Sample.chunk 400; Sample.chunk 600] in
  net (search Sample.K Sample.httpx self (Some Sample.host) None 30 ALL None
         None None Sample.s0).2 =
    net Sample.s0 ++ opened Sample.K Sample.host :: (NetRead <$> cs) ++
    [NetPost (target Sample.K self (search_params 30 ALL None None None))
             (mkFile (concat cs) 0)].
Proof.
  cbv zeta.
  apply (search_by_url_posts_body Sample.K Sample.httpx
           (Sample.endpoint
              (inr (Sample.undeclared [Chunk (Sample.chunk 400);
                                       Chunk (Sample.chunk 600)]))
              (inr (mkResponse 200 "{}")))
           Sample.host None 30 ALL None None None Sample.s0
           (Sample.undeclared [Chunk (Sample.chunk 400);
                               Chunk (Sample.chunk 600)])
           [Sample.chunk 400; Sample.chunk 600]).
  - reflexivity.
  - reflexivity.
  - reflexivity.
  - vm_compute. discriminate.
Defined.
